(** * latex-online: the download manager ([lib/DownloadManager.js])

    A shallow embedding of [DownloadManager], [Downloader] and
    [DownloadResult], and of the five download jobs the manager builds,
    followed by the properties the specification states about them.

    Conventions of the embedding.
    - A JavaScript string is a [string]; each [ascii] stands for one code
      unit in the range 0..255.
    - A JavaScript Number that is a safe integer (magnitude at most
      2^53 - 1) is modelled by its value in [Z]: this is where [++],
      [parseInt] and the decimal rendering of a Number agree with
      arithmetic on [Z].  Any other Number of a JSON document (a
      fraction, a larger magnitude) is carried as its string form, which
      is all the code ever takes from it.  Statements that render a
      number or read one with [parseInt] are made for safe integers.
    - [null] and [undefined] in a field of type [?string] are [None].
    - The modules the file requires but does not define ([./utilities],
      [fs], [child_process], [request], [path], [data-uri-regex],
      [Buffer]) are the environment: every call the code makes to them is
      appended to a log, and what they answer is read from an oracle.
    - Calls to [logger] have no influence on the control flow and are
      left out, except where evaluating the logged expression can throw.
    - The calls of a job are logged as one block when the job is
      triggered.  The callback that stores the result on the downloader
      is a step of its own, so that a [dispose] can fall between the
      trigger and the callback. *)

From Stdlib Require Import String Ascii List ZArith NArith Bool Lia.
From Stdlib Require Import Decimal DecimalString DecimalPos DecimalZ.
From ExtLib Require Import Structures.Monad.
Import ListNotations.
Import MonadNotation.
Open Scope string_scope.
Open Scope Z_scope.
Open Scope monad_scope.
Set Warnings "-register-all".

(** ** JavaScript values *)

Module Js.

(** The values a parsed JSON document is made of, plus [undefined] (what
    reading an absent property gives).  [JObj props] lists the own
    properties in the order [Object.keys] reports them.  A Number is
    [JNum n] when it is a safe integer, and [JDouble repr] otherwise,
    [repr] being the string [String] gives for it (as in [12.5],
    [1e+21] or [Infinity], which is what [JSON.parse] makes of [1e999]):
    the code looks at a Number through [typeof], its truthiness and its
    string form only. *)
Inductive JsValue : Type :=
| JUndefined
| JNull
| JBool (b : bool)
| JNum (n : Z)
| JDouble (repr : string)
| JStr (s : string)
| JArr (items : list JsValue)
| JObj (props : list (string * JsValue)).

(** What a [throw] carries in this file: a string literal, or the
    [TypeError] the runtime raises. *)
Inductive exn : Type :=
| ExnString (msg : string)
| TypeError.

(** The outcome of evaluating an expression that may throw. *)
Inductive completion (A : Type) : Type :=
| Normal (a : A)
| Throw (e : exn).
Arguments Normal {A} a.
Arguments Throw {A} e.

#[export] Instance Monad_completion : Monad completion :=
  {| ret := fun _ a => Normal a;
     bind := fun _ _ c k => match c with Normal a => k a | Throw e => Throw e end |}.

(** The result of [parseInt]: [NaN] or an integer.  [Int z] is the
    Number the code has when [z] is a safe integer; beyond, the code has
    the nearest double, which is not [NaN] either. *)
Inductive Number : Type :=
| NaN
| Int (z : Z).

Definition isNaN (x : Number) : bool :=
  match x with NaN => true | Int _ => false end.

(** Decimal rendering of an integer Number, as [String(n)] and a template
    literal produce it for a safe integer. *)
Definition decimal (z : Z) : string := NilZero.string_of_int (Z.to_int z).

Definition NumberToString (x : Number) : string :=
  match x with NaN => "NaN" | Int z => decimal z end.

Definition typeof (v : JsValue) : string :=
  match v with
  | JUndefined => "undefined"
  | JNull => "object"
  | JBool _ => "boolean"
  | JNum _ => "number"
  | JDouble _ => "number"
  | JStr _ => "string"
  | JArr _ => "object"
  | JObj _ => "object"
  end.

(** [ToBoolean]. *)
Definition truthy (v : JsValue) : bool :=
  match v with
  | JUndefined | JNull => false
  | JBool b => b
  | JNum n => negb (n =? 0)
  | JDouble _ => true
  | JStr s => negb (String.eqb s EmptyString)
  | JArr _ | JObj _ => true
  end.

Fixpoint assoc {A : Type} (k : string) (l : list (string * A)) : option A :=
  match l with
  | [] => None
  | (k', a) :: r => if String.eqb k k' then Some a else assoc k r
  end.

Definition hasKey {A : Type} (k : string) (l : list (string * A)) : bool :=
  match assoc k l with Some _ => true | None => false end.

(** [ToString].  An array is joined with commas, [null] and [undefined]
    elements giving the empty string.  A plain object answers through
    [Object.prototype.toString], unless it has an own property
    [toString]: a JSON value is never callable, so [OrdinaryToPrimitive]
    finds no usable method and throws a [TypeError]. *)
Fixpoint ToString (v : JsValue) : completion string :=
  match v with
  | JUndefined => Normal "undefined"
  | JNull => Normal "null"
  | JBool true => Normal "true"
  | JBool false => Normal "false"
  | JNum n => Normal (decimal n)
  | JDouble repr => Normal repr
  | JStr s => Normal s
  | JArr items =>
      (fix join (l : list JsValue) : completion string :=
         match l with
         | [] => Normal EmptyString
         | x :: r =>
             match (match x with
                    | JUndefined | JNull => Normal EmptyString
                    | _ => ToString x
                    end) with
             | Throw e => Throw e
             | Normal sx =>
                 match r with
                 | [] => Normal sx
                 | _ :: _ =>
                     match join r with
                     | Throw e => Throw e
                     | Normal sr => Normal (sx ++ "," ++ sr)
                     end
                 end
             end
         end) items
  | JObj props =>
      if hasKey "toString" props then Throw TypeError
      else Normal "[object Object]"
  end.

(** *** [parseInt] *)

(** [StrWhiteSpaceChar] among the code units 0..255. *)
Definition isStrWhiteSpaceChar (c : ascii) : bool :=
  let n := N_of_ascii c in
  ((9 <=? n) && (n <=? 13) || (n =? 32) || (n =? 160))%N.

Fixpoint trimStart (s : string) : string :=
  match s with
  | String c r => if isStrWhiteSpaceChar c then trimStart r else s
  | EmptyString => EmptyString
  end.

(** Value of a character as a digit, up to radix 36. *)
Definition digitValue (c : ascii) : option N :=
  let n := N_of_ascii c in
  if ((48 <=? n) && (n <=? 57))%N then Some (n - 48)%N
  else if ((97 <=? n) && (n <=? 122))%N then Some (n - 87)%N
  else if ((65 <=? n) && (n <=? 90))%N then Some (n - 55)%N
  else None.

(** The longest prefix of [s] made of digits of radix [R], read as a
    number; [None] when that prefix is empty. *)
Fixpoint parseDigits (R : N) (acc : option N) (s : string) : option N :=
  match s with
  | EmptyString => acc
  | String c r =>
      match digitValue c with
      | Some d =>
          if (d <? R)%N
          then parseDigits R (Some (match acc with
                                    | Some a => a * R + d
                                    | None => d
                                    end)%N) r
          else acc
      | None => acc
      end
  end.

(** [parseInt(string)] with no radix argument: leading white space is
    skipped, a sign is read, [0x] or [0X] selects radix 16.  The digits
    are read exactly: the result is the code's when it is a safe
    integer. *)
Definition parseIntString (inputString : string) : Number :=
  let str := trimStart inputString in
  let '(sign, str) :=
    match str with
    | String "-" r => (-1, r)
    | String "+" r => (1, r)
    | _ => (1, str)
    end in
  let '(R, str) :=
    match str with
    | String "0" (String "x" r) => (16%N, r)
    | String "0" (String "X" r) => (16%N, r)
    | _ => (10%N, str)
    end in
  match parseDigits R None str with
  | None => NaN
  | Some n => Int (sign * Z.of_N n)
  end.

Definition parseInt (v : JsValue) : completion Number :=
  s <- ToString v ;;
  ret (parseIntString s).

(** *** Property access *)

Definition indexed {A : Type} (l : list A) : list (string * A) :=
  combine (map (fun i => decimal (Z.of_nat i)) (seq 0 (length l))) l.

(** [Object.keys(v)], for [v] not [null] or [undefined]. *)
Definition ObjectKeys (v : JsValue) : completion (list string) :=
  match v with
  | JUndefined | JNull => Throw TypeError
  | JBool _ | JNum _ | JDouble _ => Normal []
  | JStr s => Normal (map fst (indexed (list_ascii_of_string s)))
  | JArr items => Normal (map fst (indexed items))
  | JObj props => Normal (map fst props)
  end.

(** [v[k]], for a key [k] that is an own property of [v] or is found on
    none of the built-in prototypes (the only keys this file reads). *)
Definition Get (v : JsValue) (k : string) : completion JsValue :=
  match v with
  | JUndefined | JNull => Throw TypeError
  | JBool _ | JNum _ | JDouble _ => Normal JUndefined
  | JStr s =>
      Normal (match assoc k (indexed (list_ascii_of_string s)) with
              | Some c => JStr (String c EmptyString)
              | None => JUndefined
              end)
  | JArr items =>
      Normal (match assoc k (indexed items) with
              | Some x => x
              | None => JUndefined
              end)
  | JObj props =>
      Normal (match assoc k props with Some x => x | None => JUndefined end)
  end.

(** *** The range of the model *)

(** [Number.MAX_SAFE_INTEGER]. *)
Definition maxSafeInteger : Z := 2 ^ 53 - 1.

Definition isSafeInteger (z : Z) : bool := Z.abs z <=? maxSafeInteger.

(** The characters of the string form of a finite Number. *)
Definition isNumberChar (c : ascii) : bool :=
  match digitValue c with
  | Some d => (d <? 10)%N || Ascii.eqb c "e"
  | None => Ascii.eqb c "." || Ascii.eqb c "+" || Ascii.eqb c "-"
  end.

Definition startsWithDigit (s : string) : bool :=
  match s with
  | String c _ =>
      match digitValue c with Some d => (d <? 10)%N | None => false end
  | EmptyString => false
  end.

Fixpoint allNumberChars (s : string) : bool :=
  match s with
  | EmptyString => true
  | String c r => isNumberChar c && allNumberChars r
  end.

(** What the string form of a finite Number looks like: digits, with at
    most a sign in front, a point and an exponent. *)
Definition isNumberString (s : string) : bool :=
  allNumberChars s &&
  match s with
  | String "-" r => startsWithDigit r
  | _ => startsWithDigit s
  end.

(** The two Numbers that are not finite and that [JSON.parse] can give. *)
Definition isInfinity (v : JsValue) : bool :=
  match v with
  | JDouble repr => String.eqb repr "Infinity" || String.eqb repr "-Infinity"
  | _ => false
  end.

(** The values the model stands for: every [JNum] is a safe integer and
    every [JDouble] carries the string form of a number. *)
Fixpoint wellFormed (v : JsValue) : bool :=
  match v with
  | JNum n => isSafeInteger n
  | JDouble repr => isNumberString repr || isInfinity v
  | JArr items => forallb wellFormed items
  | JObj props =>
      (fix all (l : list (string * JsValue)) : bool :=
         match l with
         | [] => true
         | (_, x) :: r => wellFormed x && all r
         end) props
  | _ => true
  end.

End Js.

Import Js.

(** ** [UserErrors] *)

Module UserErrors.

Definition LoadingBadResponse (url : string) (statusCode : Z) : string :=
  "failed to download URL " ++ url ++ " - got response status "
    ++ decimal statusCode.

Definition LoadingError (url error : string) : string :=
  "error while loading " ++ url ++ ": " ++ error.

Definition GitCloneFailed (url : string) : string :=
  "failed to clone git repository " ++ url.

Definition TarballExtractionFailed : string := "failed to extract tarball".

Definition ImageDataUrlExtractionFailed (imgName : string) : string :=
  "failed to save image " ++ imgName ++ " -- expected image data URI".

End UserErrors.

(** ** [DownloadResult] *)

Record DownloadResult : Type := mkDownloadResult {
  result_folderPath : option string;
  result_userError : option string
}.

(** ** The inkscape options of [createJsonDownloader] *)

(** What a call through [supportedInkscapeOptions] can return: besides
    the flag strings of the four builders, whatever the methods inherited
    from [Object.prototype] return. *)
Inductive JsAny : Type :=
| AVal (v : JsValue)       (* a JSON value, [undefined] included *)
| ABoxed (v : JsValue)     (* the wrapper object [Object(v)] of a primitive *)
| AHost (repr : string).   (* a built-in object or function; [repr] is its string form *)

Section InkscapeOptions.

Variable folderPath : string.

Definition export_png (pngFileName : JsValue) : completion string :=
  if negb (String.eqb (typeof pngFileName) "string")
  then Throw (ExnString "File name expected.")
  else
    name <- ToString pngFileName ;;
    ret ("--export-png=" ++ (folderPath ++ "/" ++ name)).

Definition export_area (area : JsValue) : completion string :=
  match (x0 <- (v <- Get area "x0" ;; parseInt v) ;;
         y0 <- (v <- Get area "y0" ;; parseInt v) ;;
         x1 <- (v <- Get area "x1" ;; parseInt v) ;;
         y1 <- (v <- Get area "y1" ;; parseInt v) ;;
         ret (x0, y0, x1, y1)) with
  | Throw _ =>
      Throw (ExnString "Four numbers x0, y0, x1, y1 expected as parameters.")
  | Normal (x0, y0, x1, y1) =>
      if isNaN x0 || isNaN y0 || isNaN x1 || isNaN y1
      then Throw (ExnString
             "Four numbers x0, y0, x1, y1 expected as parameters but NaN detected")
      else Normal ("--export-area=" ++ NumberToString x0 ++ ":"
                     ++ NumberToString y0 ++ ":" ++ NumberToString x1 ++ ":"
                     ++ NumberToString y1)
  end.

Definition export_width (width : JsValue) : completion string :=
  match parseInt width with
  | Throw _ => Throw (ExnString "Expected a number parameter.")
  | Normal w =>
      if isNaN w
      then Throw (ExnString "Expected a number parameter but NaN detected.")
      else Normal ("--export-width=" ++ NumberToString w)
  end.

Definition export_height (height : JsValue) : completion string :=
  match parseInt height with
  | Throw _ => Throw (ExnString "Expected a number parameter.")
  | Normal h =>
      if isNaN h
      then Throw (ExnString "Expected a number parameter but NaN detected.")
      else Normal ("--export-height=" ++ NumberToString h)
  end.

(** The own keys of the object literal [supportedInkscapeOptions]. *)
Definition ownOptionNames : list string :=
  ["export-png"; "export-area"; "export-width"; "export-height"].

Definition isOwnOptionName (k : string) : bool :=
  existsb (String.eqb k) ownOptionNames.

Definition flag (c : completion string) : completion JsAny :=
  s <- c ;; ret (AVal (JStr s)).

(** [supportedInkscapeOptions[option](arg)].  The object is a literal, so
    a key that is not one of its own four is looked up on
    [Object.prototype]; the call has the object itself as [this].  A key
    found nowhere gives [undefined], and calling that is a [TypeError]. *)
Definition callOption (option : string) (arg : JsValue) : completion JsAny :=
  if String.eqb option "export-png" then flag (export_png arg)
  else if String.eqb option "export-area" then flag (export_area arg)
  else if String.eqb option "export-width" then flag (export_width arg)
  else if String.eqb option "export-height" then flag (export_height arg)
  (* members of Object.prototype *)
  else if String.eqb option "toString" then Normal (AVal (JStr "[object Object]"))
  else if String.eqb option "toLocaleString" then Normal (AVal (JStr "[object Object]"))
  else if String.eqb option "valueOf" then Normal (AHost "[object Object]")
  else if String.eqb option "constructor" then
    Normal (match arg with
            | JUndefined | JNull => AVal (JObj [])
            | JArr _ | JObj _ => AVal arg
            | _ => ABoxed arg
            end)
  else if String.eqb option "hasOwnProperty" then
    k <- ToString arg ;; ret (AVal (JBool (isOwnOptionName k)))
  else if String.eqb option "propertyIsEnumerable" then
    k <- ToString arg ;; ret (AVal (JBool (isOwnOptionName k)))
  else if String.eqb option "isPrototypeOf" then Normal (AVal (JBool false))
  else if String.eqb option "__lookupGetter__" then
    k <- ToString arg ;;
    ret (if String.eqb k "__proto__"
         then AHost "function get __proto__() { [native code] }"
         else AVal JUndefined)
  else if String.eqb option "__lookupSetter__" then
    k <- ToString arg ;;
    ret (if String.eqb k "__proto__"
         then AHost "function set __proto__() { [native code] }"
         else AVal JUndefined)
  (* __defineGetter__ and __defineSetter__ reject their absent second
     argument; __proto__ is not a function; any other key is absent *)
  else Throw TypeError.

(** The inner loop of the second pass, over [Object.keys(img.inkscape)]:
    [None] when a call threw and the [catch] made the job return. *)
Fixpoint collectOptions (inkscape : JsValue) (keys : list string)
  : option (list JsAny) :=
  match keys with
  | [] => Some []
  | option :: rest =>
      match (arg <- Get inkscape option ;; callOption option arg) with
      | Throw _ => None
      | Normal f =>
          match collectOptions inkscape rest with
          | Some fs => Some (f :: fs)
          | None => None
          end
      end
  end.

End InkscapeOptions.

(** [Array.prototype.join] over the argument array, as the success log
    line of the second pass evaluates it. *)
Fixpoint joinArgs (args : list JsAny) : completion string :=
  match args with
  | [] => Normal EmptyString
  | a :: rest =>
      sa <- match a with
            | AVal JUndefined | AVal JNull => Normal EmptyString
            | AVal v | ABoxed v => ToString v
            | AHost repr => Normal repr
            end ;;
      match rest with
      | [] => ret sa
      | _ :: _ => sr <- joinArgs rest ;; ret (sa ++ "," ++ sr)
      end
  end.

Arguments joinArgs : simpl never.

(** ** The environment *)

(** What is written to a file: a string, or [new Buffer(data, encoding)]. *)
Inductive content : Type :=
| Text (s : string)
| Buffer (data encoding : string).

(** The calls the code makes to the modules it requires. *)
Inductive call : Type :=
| utils_mkdir (folderPath : string)
| utils_writeFile (filePath : string) (data : content)
| utils_rmdir (folderPath : string)
| utils_rmdirRecursive (folderPath : string)
| utils_exists (folderPath : string)
| utils_executeCommand (file : string) (args : list JsAny)
| exec (file : string) (args : list string) (timeout : option Z)
| fs_createWriteStream (filePath : string)
| request_get (url : string) (timeout : Z).

(** The events a piped [request] delivers to the handlers of
    [createURLDownloader].  [EvError err] carries the string form of
    [err]. *)
Inductive streamEvent : Type :=
| EvResponse (statusCode : Z)
| EvError (err : string)
| EvFinish.

(** The pure library functions the code calls. *)
Record Platform : Type := {
  path_join : string -> string -> string;
  (* [dataUriRE().exec(s)]: groups 3 and 4 of a match, [None] for [null] *)
  dataUriRE_exec : string -> option (string * string);
  Buffer_isEncoding : string -> bool
}.

(** The answers of the environment; each may depend on the calls made so
    far. *)
Record Env : Type := {
  mkdir_ok : list call -> string -> bool;
  writeFile_ok : list call -> string -> content -> bool;
  exists_ok : list call -> string -> bool;
  executeCommand_ok : list call -> string -> list JsAny -> bool;
  (* the [err.message] handed to the callback of [execFile], if any *)
  exec_err : list call -> string -> list string -> option string;
  request_events : list call -> string -> list streamEvent
}.

(** Modelled from the spec: [utils.minutes] of [lib/utilities.js], which
    is not part of the sources at hand.  The spec gives the timeout of
    the clone as 120 seconds, that is 120000 ms, where the code passes
    [utils.minutes(2)]. *)
Definition utils_minutes (n : Z) : Z := n * 60 * 1000.

(** ** A monad for the jobs: a log of calls, and rejection *)

Definition M (A : Type) : Type := list call -> completion A * list call.

#[export] Instance Monad_M : Monad M :=
  {| ret := fun _ a l => (Normal a, l);
     bind := fun _ _ c k l =>
       match c l with
       | (Normal a, l') => k a l'
       | (Throw e, l') => (Throw e, l')
       end |}.

Definition perform (c : call) : M unit :=
  fun l => (Normal tt, (l ++ [c])%list).

Definition ask {A : Type} (c : call) (answer : list call -> A) : M A :=
  fun l => (Normal (answer l), (l ++ [c])%list).

Definition liftC {A : Type} (c : completion A) : M A :=
  fun l => (c, l).

(** How the promise of a job ends when the job does not reject. *)
Inductive settlement : Type :=
| Settled (result : DownloadResult)
| Unsettled.

Definition Job : Type := M settlement.

Definition fulfilled (folderPath userError : option string) : M settlement :=
  ret (Settled (mkDownloadResult folderPath userError)).

(** ** The jobs of [DownloadManager] *)

Record Image : Type := {
  name : string;
  imageDataUrl : string;
  inkscape : JsValue            (* [JUndefined] when absent *)
}.

Record JsonData : Type := {
  text : string;
  images : list Image
}.

Section Jobs.

Variable pf : Platform.
Variable env : Env.

Definition createFolder (folderPath : string) : M bool :=
  ask (utils_mkdir folderPath) (fun l => mkdir_ok env l folderPath).

Definition writeFile (filePath : string) (data : content) : M bool :=
  ask (utils_writeFile filePath data) (fun l => writeFile_ok env l filePath data).

(** The job of [createTextDownloader]. *)
Definition textJob (text fileName folderPath : string) : Job :=
  success <- createFolder folderPath ;;
  if negb success then fulfilled None None
  else
    let filePath := path_join pf folderPath fileName in
    fileCreated <- writeFile filePath (Text text) ;;
    if negb fileCreated then
      perform (utils_rmdir folderPath) ;;
      fulfilled None None
    else fulfilled (Some folderPath) None.

(** The job of [createGitDownloader]. *)
Definition gitJob (url folderPath : string) : Job :=
  exists_ <- ask (utils_exists folderPath) (fun l => exists_ok env l folderPath) ;;
  if (exists_ : bool) then fulfilled None None
  else
    let args := ["clone"; "--depth"; "1"; url; folderPath] in
    err <- ask (exec "git" args (Some (utils_minutes 2)))
               (fun l => exec_err env l "git" args) ;;
    match err with
    | Some _ => fulfilled None (Some (UserErrors.GitCloneFailed url))
    | None => fulfilled (Some folderPath) None
    end.

(** The promise of the url and tarball jobs is resolved by the first
    call of [fulfill]; later calls change nothing. *)
Definition fulfill (promise : option DownloadResult) (x : DownloadResult)
  : option DownloadResult :=
  match promise with
  | Some r => Some r
  | None => Some x
  end.

(** The three handlers of [createURLDownloader], run on the events in
    the order the stream delivers them. *)
Fixpoint handleEvents (url folderPath : string) (events : list streamEvent)
    (promise : option DownloadResult) : M (option DownloadResult) :=
  match events with
  | [] => ret promise
  | EvResponse statusCode :: rest =>
      if (statusCode <? 200) || (statusCode >=? 400) then
        let error := UserErrors.LoadingBadResponse url statusCode in
        handleEvents url folderPath rest
          (fulfill promise (mkDownloadResult None (Some error)))
      else handleEvents url folderPath rest promise
  | EvError err :: rest =>
      perform (utils_rmdirRecursive folderPath) ;;
      let error := UserErrors.LoadingError url err in
      handleEvents url folderPath rest
        (fulfill promise (mkDownloadResult None (Some error)))
  | EvFinish :: rest =>
      handleEvents url folderPath rest
        (fulfill promise (mkDownloadResult (Some folderPath) None))
  end.

(** The job of [createURLDownloader]. *)
Definition urlJob (url fileName folderPath : string) : Job :=
  success <- createFolder folderPath ;;
  if negb success then fulfilled None None
  else
    let filePath := path_join pf folderPath fileName in
    perform (fs_createWriteStream filePath) ;;
    events <- ask (request_get url 5000) (fun l => request_events env l url) ;;
    promise <- handleEvents url folderPath events None ;;
    match promise with
    | Some result => ret (Settled result)
    | None => ret Unsettled
    end.

(** The job of [createTarballExtractor]. *)
Definition tarballJob (tarballPath folderPath : string) : Job :=
  success <- createFolder folderPath ;;
  if negb success then fulfilled None None
  else
    let args := ["-xf"; tarballPath; "-C"; folderPath] in
    err <- ask (exec "tar" args None) (fun l => exec_err env l "tar" args) ;;
    match err with
    | Some _ =>
        perform (utils_rmdirRecursive folderPath) ;;
        fulfilled None (Some UserErrors.TarballExtractionFailed)
    | None => fulfilled (Some folderPath) None
    end.

(** [new Buffer(data, encoding)] throws on an encoding it does not know. *)
Definition newBuffer (data encoding : string) : completion content :=
  if Buffer_isEncoding pf encoding then Normal (Buffer data encoding)
  else Throw TypeError.

(** First pass of the json job: the images are written in array order.
    [Some result] is an early [return]. *)
Fixpoint saveImages (folderPath : string) (imgs : list Image)
  : M (option DownloadResult) :=
  match imgs with
  | [] => ret None
  | img :: rest =>
      match dataUriRE_exec pf (imageDataUrl img) with
      | None =>
          perform (utils_rmdirRecursive folderPath) ;;
          let error := UserErrors.ImageDataUrlExtractionFailed (name img) in
          ret (Some (mkDownloadResult None (Some error)))
      | Some (encoding, data) =>
          let filePath := path_join pf folderPath (name img) in
          buffer <- liftC (newBuffer data encoding) ;;
          fileCreated <- writeFile filePath buffer ;;
          if negb fileCreated then
            perform (utils_rmdirRecursive folderPath) ;;
            ret (Some (mkDownloadResult None None))
          else saveImages folderPath rest
      end
  end.

(** Second pass: inkscape is run on every image that asks for it. *)
Fixpoint convoluteImages (folderPath : string) (imgs : list Image)
  : M (option DownloadResult) :=
  match imgs with
  | [] => ret None
  | img :: rest =>
      if truthy (inkscape img) then
        let imgPath := path_join pf folderPath (name img) in
        keys <- liftC (ObjectKeys (inkscape img)) ;;
        match collectOptions folderPath (inkscape img) keys with
        | None => ret (Some (mkDownloadResult None None))
        | Some jsonInkscapeOptions =>
            let options :=
              [AVal (JStr "--without-gui"); AVal (JStr ("--file=" ++ imgPath))] in
            let args := (options ++ jsonInkscapeOptions)%list in
            success <- ask (utils_executeCommand "/usr/bin/inkscape" args)
                           (fun l => executeCommand_ok env l "/usr/bin/inkscape" args) ;;
            if negb success then ret (Some (mkDownloadResult None None))
            else
              liftC (joinArgs args) ;;      (* the argument of logger.info *)
              convoluteImages folderPath rest
        end
      else convoluteImages folderPath rest
  end.

(** The job of [createJsonDownloader]. *)
Definition jsonJob (jsonData : JsonData) (fileName folderPath : string) : Job :=
  success <- createFolder folderPath ;;
  if negb success then fulfilled None None
  else
    let filePath := path_join pf folderPath fileName in
    fileCreated <- writeFile filePath (Text (text jsonData)) ;;
    if negb fileCreated then
      perform (utils_rmdir folderPath) ;;
      fulfilled None None
    else
      early <- saveImages folderPath (images jsonData) ;;
      match early with
      | Some result => ret (Settled result)
      | None =>
          early <- convoluteImages folderPath (images jsonData) ;;
          match early with
          | Some result => ret (Settled result)
          | None => fulfilled (Some folderPath) None
          end
      end.

End Jobs.

(** ** [Downloader] *)

(** The promise [downloadIfNeeded] caches is the one [then] returns.  It
    stays pending until the job's own promise is fulfilled and the
    callback has run; it then resolves with the downloader itself. *)
Inductive promiseState : Type :=
| CallbackPending (result : DownloadResult)   (* the job has a result, the callback is queued *)
| NeverSettled                                (* the job's promise is never resolved *)
| Rejected (e : exn)                          (* the job threw *)
| ResolvedWithThis.                           (* the callback has run *)

Record Promise : Type := {
  promiseId : nat;
  promiseState_ : promiseState
}.

Record Downloader : Type := {
  folderPath : option string;
  userError : option string;
  _disposed : bool;
  _dislabedCleanup : bool;       (* read by dispose, assigned nowhere: falsy *)
  _downloadJob : Job;
  _downloadPromise : option Promise
}.

(** [new Downloader(downloadJob)]. *)
Definition newDownloader (downloadJob : Job) : Downloader :=
  {| folderPath := None;
     userError := None;
     _disposed := false;
     _dislabedCleanup := false;
     _downloadJob := downloadJob;
     _downloadPromise := None |}.

(** What surrounds a downloader: the log of calls, the number of promises
    allocated so far (a promise is identified by its rank), and a ghost
    counter of the calls of download jobs. *)
Record World : Type := {
  log : list call;
  promises : nat;
  jobCalls : nat
}.

Definition emptyWorld : World := {| log := []; promises := 0; jobCalls := 0 |}.

(** [downloadIfNeeded()]: returns the promise, the updated downloader and
    the updated world.  The calls the job makes are logged as one block. *)
Definition downloadIfNeeded (this : Downloader) (w : World)
  : nat * Downloader * World :=
  match _downloadPromise this with
  | Some p => (promiseId p, this, w)
  | None =>
      let '(outcome, log') := _downloadJob this (log w) in
      let p := {| promiseId := promises w;
                  promiseState_ :=
                    match outcome with
                    | Normal (Settled result) => CallbackPending result
                    | Normal Unsettled => NeverSettled
                    | Throw e => Rejected e
                    end |} in
      (promiseId p,
       {| folderPath := folderPath this;
          userError := userError this;
          _disposed := _disposed this;
          _dislabedCleanup := _dislabedCleanup this;
          _downloadJob := _downloadJob this;
          _downloadPromise := Some p |},
       {| log := log'; promises := S (promises w); jobCalls := S (jobCalls w) |})
  end.

(** The callback given to [then], run once the job's promise is
    fulfilled. *)
Definition runCallback (this : Downloader) : Downloader :=
  match _downloadPromise this with
  | Some {| promiseId := id; promiseState_ := CallbackPending result |} =>
      {| folderPath := result_folderPath result;
         userError := result_userError result;
         _disposed := _disposed this;
         _dislabedCleanup := _dislabedCleanup this;
         _downloadJob := _downloadJob this;
         _downloadPromise :=
           Some {| promiseId := id; promiseState_ := ResolvedWithThis |} |}
  | _ => this
  end.

(** Truthiness of a [?string]. *)
Definition truthyPath (p : option string) : bool :=
  match p with
  | Some s => negb (String.eqb s EmptyString)
  | None => false
  end.

(** [dispose()]. *)
Definition dispose (this : Downloader) : M Downloader :=
  if _disposed this then ret this
  else
    let this :=
      {| folderPath := folderPath this;
         userError := userError this;
         _disposed := true;
         _dislabedCleanup := _dislabedCleanup this;
         _downloadJob := _downloadJob this;
         _downloadPromise := _downloadPromise this |} in
    if _dislabedCleanup this then ret this
    else if negb (truthyPath (folderPath this)) then ret this
    else
      match folderPath this with
      | Some p => perform (utils_rmdirRecursive p) ;; ret this
      | None => ret this
      end.

(** *** Histories of one downloader *)

Inductive op : Type :=
| Trigger       (* a call of downloadIfNeeded *)
| Callback      (* the event loop runs the queued callback, if any *)
| Dispose.      (* a call of dispose *)

Record System : Type := {
  downloader : Downloader;
  world : World
}.

Definition newSystem (downloadJob : Job) : System :=
  {| downloader := newDownloader downloadJob; world := emptyWorld |}.

(** One step; the second component is the promise a [Trigger] returns. *)
Definition step (s : System) (o : op) : System * option nat :=
  match o with
  | Trigger =>
      let '(p, this, w) := downloadIfNeeded (downloader s) (world s) in
      ({| downloader := this; world := w |}, Some p)
  | Callback =>
      ({| downloader := runCallback (downloader s); world := world s |}, None)
  | Dispose =>
      let '(outcome, log') := dispose (downloader s) (log (world s)) in
      ({| downloader := match outcome with
                        | Normal this => this
                        | Throw _ => downloader s
                        end;
          world := {| log := log';
                      promises := promises (world s);
                      jobCalls := jobCalls (world s) |} |}, None)
  end.

(** A history, with the promises its triggers returned, in order. *)
Fixpoint run (s : System) (ops : list op) : System * list nat :=
  match ops with
  | [] => (s, [])
  | o :: rest =>
      let '(s', returned) := step s o in
      let '(s'', more) := run s' rest in
      (s'', match returned with Some p => p :: more | None => more end)
  end.

Definition isTrigger (o : op) : bool :=
  match o with Trigger => true | _ => false end.

(** ** [DownloadManager] *)

Record DownloadManager : Type := {
  _folderPath : string;
  _id : Z
}.

(** [new DownloadManager(folderPath)]. *)
Definition newDownloadManager (folderPath : string) : DownloadManager :=
  {| _folderPath := folderPath; _id := 0 |}.

Section Manager.

Variable pf : Platform.
Variable env : Env.

Definition _nextName (this : DownloadManager) : string * DownloadManager :=
  let id := _id this + 1 in
  (path_join pf (_folderPath this) ("tmp_" ++ decimal id),
   {| _folderPath := _folderPath this; _id := id |}).

Definition createTextDownloader (this : DownloadManager) (text fileName : string)
  : Downloader * DownloadManager :=
  let '(folderPath, this) := _nextName this in
  (newDownloader (textJob pf env text fileName folderPath), this).

Definition createGitDownloader (this : DownloadManager) (url : string)
  : Downloader * DownloadManager :=
  let '(folderPath, this) := _nextName this in
  (newDownloader (gitJob env url folderPath), this).

Definition createURLDownloader (this : DownloadManager) (url fileName : string)
  : Downloader * DownloadManager :=
  let '(folderPath, this) := _nextName this in
  (newDownloader (urlJob pf env url fileName folderPath), this).

Definition createTarballExtractor (this : DownloadManager) (tarballPath : string)
  : Downloader * DownloadManager :=
  let '(folderPath, this) := _nextName this in
  (newDownloader (tarballJob env tarballPath folderPath), this).

Definition createJsonDownloader (this : DownloadManager) (jsonData : JsonData)
    (fileName : string) : Downloader * DownloadManager :=
  let '(folderPath, this) := _nextName this in
  (newDownloader (jsonJob pf env jsonData fileName folderPath), this).

End Manager.

(** ** Vocabulary of the statements *)

(** A history of the downloader built around [job], started in world
    [w0]. *)
Definition history (job : Job) (w0 : World) (ops : list op) : System * list nat :=
  run {| downloader := newDownloader job; world := w0 |} ops.

(** What holds of a downloader along every history: the job and the
    cleanup switch never change, and the cached promise tells how far
    the one call of the job has got. *)
Definition memoized (job : Job) (w0 : World) (s : System) : Prop :=
  let this := downloader s in
  _downloadJob this = job /\
  _dislabedCleanup this = false /\
  match _downloadPromise this with
  | None =>
      folderPath this = None /\ userError this = None /\ world s = w0
  | Some p =>
      promiseId p = promises w0 /\
      promises (world s) = S (promises w0) /\
      jobCalls (world s) = S (jobCalls w0) /\
      match promiseState_ p with
      | CallbackPending result =>
          fst (job (log w0)) = Normal (Settled result) /\
          folderPath this = None /\ userError this = None
      | NeverSettled =>
          fst (job (log w0)) = Normal Unsettled /\
          folderPath this = None /\ userError this = None
      | Rejected e =>
          fst (job (log w0)) = Throw e /\
          folderPath this = None /\ userError this = None
      | ResolvedWithThis =>
          exists result,
            fst (job (log w0)) = Normal (Settled result) /\
            folderPath this = result_folderPath result /\
            userError this = result_userError result
      end
  end.

(** What holds once [dispose] has been called before any trigger: the
    downloader stays disposed and the log holds the calls of the job and
    nothing else. *)
Definition disposedEarly (job : Job) (w0 : World) (s : System) : Prop :=
  let this := downloader s in
  _downloadJob this = job /\
  _disposed this = true /\
  match _downloadPromise this with
  | None => world s = w0
  | Some _ =>
      log (world s) = snd (job (log w0)) /\
      jobCalls (world s) = S (jobCalls w0)
  end.

(** The three shapes of a result, for a job given [folderPath]. *)
Definition threeShapes (folderPath : string) (r : DownloadResult) : Prop :=
  r = mkDownloadResult (Some folderPath) None \/
  (exists error, r = mkDownloadResult None (Some error)) \/
  r = mkDownloadResult None None.

(** [job] can produce [r]: started on some log, its promise is fulfilled
    with [r]. *)
Definition produces (job : Job) (r : DownloadResult) : Prop :=
  exists l, fst (job l) = Normal (Settled r).


(** An event that leaves the promise of the url job pending: a response
    whose status is in the band of success. *)
Definition quiet (ev : streamEvent) : bool :=
  match ev with
  | EvResponse statusCode => (200 <=? statusCode) && (statusCode <? 400)
  | _ => false
  end.

Definition isError (ev : streamEvent) : bool :=
  match ev with EvError _ => true | _ => false end.

(** The events the url job is handed when started on log [l]. *)
Definition urlEvents (pf : Platform) (env : Env) (url fileName folderPath : string)
    (l : list call) : list streamEvent :=
  request_events env
    (l ++ [utils_mkdir folderPath;
           fs_createWriteStream (path_join pf folderPath fileName)])%list url.

(** An image the first pass of the json job gets through, when the file
    can be written: its data URI matches and names a known encoding. *)
Definition decodable (pf : Platform) (img : Image) : Prop :=
  exists encoding data,
    dataUriRE_exec pf (imageDataUrl img) = Some (encoding, data) /\
    Buffer_isEncoding pf encoding = true.

(** The calls that write the images [imgs]. *)
Definition imageWrites (pf : Platform) (folderPath : string) (imgs : list Image)
  : list call :=
  flat_map (fun img =>
              match dataUriRE_exec pf (imageDataUrl img) with
              | Some (encoding, data) =>
                  [utils_writeFile (path_join pf folderPath (name img))
                     (Buffer data encoding)]
              | None => []
              end) imgs.

(** A platform and an environment to run examples on: paths are joined
    with a slash, a data URI is anything that starts with [data:] and is
    taken to be base64, every directory and file operation succeeds, no
    folder exists beforehand, and the stream delivers [events]. *)
Definition examplePlatform : Platform :=
  {| path_join := fun a b => a ++ "/" ++ b;
     dataUriRE_exec := fun s =>
       if String.prefix "data:" s then Some ("base64", s) else None;
     Buffer_isEncoding := fun encoding => String.eqb encoding "base64" |}.

Definition exampleEnv (cloneError : option string) (events : list streamEvent)
  : Env :=
  {| mkdir_ok := fun _ _ => true;
     writeFile_ok := fun _ _ _ => true;
     exists_ok := fun _ _ => false;
     executeCommand_ok := fun _ _ _ => true;
     exec_err := fun _ _ _ => cloneError;
     request_events := fun _ _ => events |}.

Definition exampleManager : DownloadManager := newDownloadManager "/tmp/dl".

(** The integer parameters: the Numbers that are safe integers.  A
    string, and any other value that is not a Number, is not an
    integer. *)
Definition isInteger (v : JsValue) : bool :=
  match v with JNum _ => true | _ => false end.

(** [parseInt(area[k])], as [export-area] evaluates it. *)
Definition areaBound (area : JsValue) (k : string) : completion Number :=
  v <- Get area k ;; parseInt v.

(** The members of [Object.prototype] that can be called with one JSON
    argument without throwing for want of a second one. *)
Definition inheritedOptionNames : list string :=
  ["toString"; "toLocaleString"; "valueOf"; "constructor"; "hasOwnProperty";
   "propertyIsEnumerable"; "isPrototypeOf"; "__lookupGetter__";
   "__lookupSetter__"].

(** ** Further vocabulary *)

(** [DownloadManager.create(folderPath)], given what
    [utils.recreateFolderIfNonEmpty] answered; [None] is [null]. *)
Definition create (recreated : bool) (folderPath : string)
  : option DownloadManager :=
  if negb recreated then None else Some (newDownloadManager folderPath).

(** The names [n] successive calls of [_nextName] hand out, and the
    manager they leave. *)
Fixpoint nextNames (pf : Platform) (this : DownloadManager) (n : nat)
  : list string * DownloadManager :=
  match n with
  | O => ([], this)
  | S n' =>
      let '(folderPath, this) := _nextName pf this in
      let '(more, this) := nextNames pf this n' in
      (folderPath :: more, this)
  end.

(** A call that removes a folder. *)
Definition isRemoval (c : call) : bool :=
  match c with
  | utils_rmdir _ | utils_rmdirRecursive _ => true
  | _ => false
  end.

(** A run of an external command through [utils.executeCommand]. *)
Definition isCommand (c : call) : bool :=
  match c with
  | utils_executeCommand _ _ => true
  | _ => false
  end.

Definition isCallback (o : op) : bool :=
  match o with Callback => true | _ => false end.

Definition isDispose (o : op) : bool :=
  match o with Dispose => true | _ => false end.

(** The download is over: the cached promise is resolved. *)
Definition resolved (s : System) : Prop :=
  exists id,
    _downloadPromise (downloader s)
      = Some {| promiseId := id; promiseState_ := ResolvedWithThis |}.

(** More environments to run examples on: one in which a single file
    cannot be written, one in which every command fails. *)
Definition unwritableEnv (bad : string) : Env :=
  {| mkdir_ok := fun _ _ => true;
     writeFile_ok := fun _ p _ => negb (String.eqb p bad);
     exists_ok := fun _ _ => false;
     executeCommand_ok := fun _ _ _ => true;
     exec_err := fun _ _ _ => None;
     request_events := fun _ _ => [] |}.

Definition failingCommandEnv : Env :=
  {| mkdir_ok := fun _ _ => true;
     writeFile_ok := fun _ _ _ => true;
     exists_ok := fun _ _ => false;
     executeCommand_ok := fun _ _ _ => false;
     exec_err := fun _ _ _ => None;
     request_events := fun _ _ => [] |}.

(** A platform whose data URIs name a character set, which [Buffer]
    does not take as an encoding. *)
Definition charsetPlatform : Platform :=
  {| path_join := fun a b => a ++ "/" ++ b;
     dataUriRE_exec := fun s =>
       if String.prefix "data:" s then Some ("charset=utf-8", s) else None;
     Buffer_isEncoding := fun encoding => String.eqb encoding "base64" |}.

Definition exampleImage (name : string) (inkscape : JsValue) : Image :=
  {| name := name;
     imageDataUrl := "data:image/svg+xml;base64,AAAA";
     inkscape := inkscape |}.

(** Where the log of a triggered downloader stands: it holds the calls
    of the job, and after a [dispose] that found a folder, the removal of
    that folder as well. *)
Definition removalLogged (job : Job) (w0 : World) (s : System) : Prop :=
  let this := downloader s in
  match _downloadPromise this with
  | None => True
  | Some _ =>
      log (world s) = snd (job (log w0)) \/
      (_disposed this = true /\
       exists path,
         folderPath this = Some path /\
         path <> EmptyString /\
         log (world s) = (snd (job (log w0)) ++ [utils_rmdirRecursive path])%list)
  end.

(** Unfolding the primitives of the job monad. *)
Ltac run_job :=
  unfold fulfilled, createFolder, writeFile, ask, perform, liftC in *;
  cbn [bind ret Monad_M Monad_completion fst snd] in *.

Ltac shape_of H :=
  simpl in H; inversion H; subst; unfold threeShapes; eauto.

(** ** Properties of [Downloader] *)

Lemma memoized_new (job : Job) (w0 : World) :
  memoized job w0 {| downloader := newDownloader job; world := w0 |}.
Proof. unfold memoized; simpl; auto. Qed.

Lemma truthyPath_None : truthyPath None = false.
Proof. reflexivity. Qed.

Lemma memoized_step (job : Job) (w0 : World) (s : System) (o : op) :
  memoized job w0 s -> memoized job w0 (fst (step s o)).
Proof.
  destruct s as [[fp ue dsp flag j prom] w]. unfold memoized. simpl.
  intros (-> & -> & Hp).
  destruct o; simpl.
  - (* Trigger *)
    unfold downloadIfNeeded; simpl.
    destruct prom as [p|]; simpl; auto.
    destruct Hp as (-> & -> & ->).
    destruct (job (log w0)) as [outcome l'] eqn:Ej. simpl.
    repeat split; auto.
    destruct outcome as [[result|]|e]; simpl; auto.
  - (* Callback *)
    unfold runCallback; simpl.
    destruct prom as [[id st]|]; simpl; auto.
    destruct st; simpl in *; auto.
    destruct Hp as (Hid & Hn & Hc & Hr & _ & _).
    repeat split; auto. exists result. auto.
  - (* Dispose *)
    unfold dispose; simpl.
    destruct dsp; simpl.
    + destruct w; auto.
    + destruct fp as [path|]; simpl.
      * destruct (String.eqb path EmptyString); simpl;
          (split; [reflexivity | split; [reflexivity |]]);
          destruct prom as [p|]; simpl; auto;
          destruct Hp as (Hf & _); discriminate.
      * split; [reflexivity | split; [reflexivity |]].
        destruct prom as [p|]; simpl; auto.
        destruct Hp as (_ & Hu & ->). destruct w0; auto.
Qed.

Lemma memoized_run (job : Job) (w0 : World) (ops : list op) :
  forall s, memoized job w0 s -> memoized job w0 (fst (run s ops)).
Proof.
  induction ops as [|o rest IH]; intros s Hs; simpl; auto.
  pose proof (memoized_step job w0 s o Hs) as Hstep.
  destruct (step s o) as [s' returned]. simpl in Hstep.
  specialize (IH s' Hstep).
  destruct (run s' rest) as [s'' more]. exact IH.
Qed.

(** Along a history every trigger returns the promise of rank
    [promises w0]. *)
Lemma memoized_returned (job : Job) (w0 : World) (ops : list op) :
  forall s, memoized job w0 s ->
    Forall (eq (promises w0)) (snd (run s ops)) /\
    length (snd (run s ops)) = length (filter isTrigger ops).
Proof.
  induction ops as [|o rest IH]; intros s Hs; simpl; auto.
  pose proof (memoized_step job w0 s o Hs) as Hstep.
  assert (Hret : match snd (step s o) with
                 | Some p => isTrigger o = true /\ p = promises w0
                 | None => isTrigger o = false
                 end).
  { destruct s as [[fp ue dsp flag j prom] w]. destruct o; simpl; auto.
    - unfold downloadIfNeeded; simpl.
      destruct Hs as (Hj & _ & Hp). simpl in Hj, Hp. subst j.
      destruct prom as [p|]; simpl.
      + destruct Hp as (-> & _). auto.
      + destruct Hp as (_ & _ & ->).
        destruct (job (log w0)); simpl; auto.
    - destruct (dispose _ _); reflexivity. }
  destruct (step s o) as [s' returned]. simpl in Hstep, Hret.
  destruct (IH s' Hstep) as [Hall Hlen].
  destruct (run s' rest) as [s'' more]. simpl in *.
  destruct returned as [p|].
  - destruct Hret as [-> ->]. simpl. split; [constructor; auto | congruence].
  - rewrite Hret. auto.
Qed.

(** After a trigger the promise is cached for good. *)
Lemma triggered_step (s : System) (o : op) :
  isTrigger o = true \/ _downloadPromise (downloader s) <> None ->
  _downloadPromise (downloader (fst (step s o))) <> None.
Proof.
  destruct s as [[fp ue dsp flag j prom] w].
  destruct o; simpl; intros [H|H]; try discriminate.
  - unfold downloadIfNeeded; simpl. destruct prom; simpl; try discriminate.
    destruct (j (log w)); simpl; discriminate.
  - unfold downloadIfNeeded; simpl. destruct prom; simpl; try discriminate.
    destruct (j (log w)); simpl; discriminate.
  - unfold runCallback; simpl.
    destruct prom as [[id st]|]; simpl; [|contradiction].
    destruct st; simpl; discriminate.
  - unfold dispose; simpl.
    destruct dsp; simpl; auto.
    destruct flag; simpl; auto.
    destruct fp as [path|]; simpl; auto.
    destruct (String.eqb path EmptyString); simpl; auto.
Qed.

Lemma triggered_run (ops : list op) :
  forall s,
    existsb isTrigger ops = true \/ _downloadPromise (downloader s) <> None ->
    _downloadPromise (downloader (fst (run s ops))) <> None.
Proof.
  induction ops as [|o rest IH]; intros s H; simpl.
  - destruct H as [H|H]; [discriminate | exact H].
  - pose proof (triggered_step s o) as Hstep.
    destruct (step s o) as [s' returned]. simpl in Hstep.
    specialize (IH s').
    destruct (run s' rest) as [s'' more]. simpl in *.
    apply IH.
    destruct H as [H|H].
    + apply orb_true_iff in H. destruct H as [H|H]; auto.
    + auto.
Qed.

(** [dispose] on a downloader whose cleanup switch is off, case by case. *)
Lemma dispose_cases (this : Downloader) (l : list call) :
  _dislabedCleanup this = false ->
  exists this',
    _disposed this' = true /\
    _dislabedCleanup this' = false /\
    folderPath this' = folderPath this /\
    (_disposed this = true -> this' = this) /\
    dispose this l =
      (Normal this',
       if _disposed this then l
       else match folderPath this with
            | Some path =>
                if String.eqb path EmptyString then l
                else (l ++ [utils_rmdirRecursive path])%list
            | None => l
            end).
Proof.
  destruct this as [fp ue dsp flag j prom]. simpl. intros ->.
  unfold dispose; simpl.
  destruct dsp; simpl.
  - eexists; repeat split; eauto.
  - exists {| folderPath := fp; userError := ue; _disposed := true;
              _dislabedCleanup := false; _downloadJob := j;
              _downloadPromise := prom |}.
    simpl. repeat split; try discriminate.
    destruct fp as [path|]; simpl; auto.
    destruct (String.eqb path EmptyString); reflexivity.
Qed.

(** Once disposed, a downloader stays disposed. *)
Lemma disposed_step (s : System) (o : op) :
  _disposed (downloader s) = true ->
  _disposed (downloader (fst (step s o))) = true.
Proof.
  destruct s as [[fp ue dsp flag j prom] w]. simpl. intros ->.
  destruct o; simpl; auto.
  - unfold downloadIfNeeded; simpl.
    destruct prom; simpl; auto. destruct (j (log w)); reflexivity.
  - unfold runCallback; simpl.
    destruct prom as [[id st]|]; simpl; auto. destruct st; reflexivity.
Qed.

Lemma disposed_run (ops : list op) :
  forall s,
    _disposed (downloader s) = true ->
    _disposed (downloader (fst (run s ops))) = true.
Proof.
  induction ops as [|o rest IH]; intros s Hs; simpl; auto.
  pose proof (disposed_step s o Hs) as Hstep.
  destruct (step s o) as [s' returned]. simpl in Hstep.
  specialize (IH s' Hstep).
  destruct (run s' rest) as [s'' more]. exact IH.
Qed.

(** C2.  [dispose] is idempotent and terminal.  On a downloader that is
    already disposed it changes nothing; on one whose folder path is
    unset (or empty) it makes no call and only marks the downloader
    disposed; otherwise it calls
    [utils.rmdirRecursive] on the folder.  Calling it twice makes that
    call at most once, and the second call returns normally, leaving
    downloader and log as the first call left them.  Nothing that
    happens later makes a disposed downloader live again. *)
Theorem dispose_idempotent_terminal :
  forall (job : Job) (w0 : World) (ops : list op) (s : System)
         (returned : list nat),
    history job w0 ops = (s, returned) ->
    let this := downloader s in
    let l := log (world s) in
    (_disposed this = true -> dispose this l = (Normal this, l)) /\
    (truthyPath (folderPath this) = false ->
       exists this',
         dispose this l = (Normal this', l) /\
         _disposed this' = true /\
         folderPath this' = folderPath this) /\
    (forall path,
       _disposed this = false ->
       folderPath this = Some path ->
       path <> EmptyString ->
       exists this',
         dispose this l = (Normal this', (l ++ [utils_rmdirRecursive path])%list)) /\
    (exists this' l',
       dispose this l = (Normal this', l') /\
       dispose this' l' = (Normal this', l') /\
       _disposed this' = true /\
       (l' = l \/ exists path, l' = (l ++ [utils_rmdirRecursive path])%list)) /\
    (forall later,
       _disposed this = true ->
       _disposed (downloader (fst (run s later))) = true).
Proof.
  intros job w0 ops s returned Hrun this l. unfold history in Hrun.
  pose proof (memoized_run job w0 ops _ (memoized_new job w0)) as Hinv.
  rewrite Hrun in Hinv. simpl in Hinv. destruct Hinv as (_ & Hflag & _).
  fold this in Hflag.
  destruct (dispose_cases this l Hflag) as (this' & Hd' & Hflag' & Hfp & Hsame & Heq).
  split; [| split; [| split; [| split]]].
  - intros Hd. rewrite Heq, Hd, (Hsame Hd). reflexivity.
  - intros Hfalsy. exists this'. rewrite Heq.
    split; [| split; assumption].
    destruct (_disposed this); auto.
    unfold truthyPath in Hfalsy.
    destruct (folderPath this) as [path|]; auto.
    destruct (String.eqb path EmptyString); [reflexivity | discriminate].
  - intros path Hd Hpath Hne. exists this'. rewrite Heq, Hd, Hpath.
    destruct (String.eqb_spec path EmptyString); [contradiction | reflexivity].
  - eexists this', _. split; [exact Heq |]. split; [| split; [exact Hd' |]].
    + destruct (dispose_cases this' (if _disposed this then l
                  else match folderPath this with
                       | Some path =>
                           if String.eqb path EmptyString then l
                           else (l ++ [utils_rmdirRecursive path])%list
                       | None => l
                       end) Hflag')
        as (this'' & _ & _ & _ & Hsame' & Heq').
      rewrite Heq', Hd', (Hsame' Hd'). reflexivity.
    + destruct (_disposed this); auto.
      destruct (folderPath this) as [path|]; auto.
      destruct (String.eqb path EmptyString); eauto.
  - intros later Hd. apply disposed_run. exact Hd.
Qed.

Lemma disposedEarly_step (job : Job) (w0 : World) (s : System) (o : op) :
  disposedEarly job w0 s -> disposedEarly job w0 (fst (step s o)).
Proof.
  destruct s as [[fp ue dsp flag j prom] w]. unfold disposedEarly. simpl.
  intros (-> & -> & Hp).
  destruct o; simpl.
  - unfold downloadIfNeeded; simpl.
    destruct prom as [p|]; simpl; auto.
    subst w.
    destruct (job (log w0)) as [outcome l'] eqn:Ej. simpl. auto.
  - unfold runCallback; simpl.
    destruct prom as [[id st]|]; simpl; auto.
    destruct st; simpl; auto.
  - unfold dispose; simpl.
    repeat split; auto.
    destruct prom as [p|]; simpl; auto. subst w. destruct w0; auto.
Qed.

Lemma disposedEarly_run (job : Job) (w0 : World) (ops : list op) :
  forall s, disposedEarly job w0 s -> disposedEarly job w0 (fst (run s ops)).
Proof.
  induction ops as [|o rest IH]; intros s Hs; simpl; auto.
  pose proof (disposedEarly_step job w0 s o Hs) as Hstep.
  destruct (step s o) as [s' returned]. simpl in Hstep.
  specialize (IH s' Hstep).
  destruct (run s' rest) as [s'' more]. exact IH.
Qed.

Lemma untriggered_step (s : System) (o : op) :
  isTrigger o = false ->
  _downloadPromise (downloader s) = None ->
  _downloadPromise (downloader (fst (step s o))) = None.
Proof.
  destruct s as [[fp ue dsp flag j prom] w].
  destruct o; simpl; intros Ho Hp; try discriminate; subst prom.
  - reflexivity.
  - unfold dispose; simpl.
    destruct dsp; simpl; auto.
    destruct flag; simpl; auto.
    destruct fp as [path|]; simpl; auto.
    destruct (String.eqb path EmptyString); simpl; auto.
Qed.

Lemma untriggered_run (ops : list op) :
  forall s,
    existsb isTrigger ops = false ->
    _downloadPromise (downloader s) = None ->
    _downloadPromise (downloader (fst (run s ops))) = None.
Proof.
  induction ops as [|o rest IH]; intros s H Hp; simpl; auto.
  simpl in H. apply orb_false_iff in H. destruct H as [Ho Hrest].
  pose proof (untriggered_step s o Ho Hp) as Hstep.
  destruct (step s o) as [s' returned]. simpl in Hstep.
  specialize (IH s' Hrest Hstep).
  destruct (run s' rest) as [s'' more]. exact IH.
Qed.

(** C10.  A [dispose] before the first trigger marks the downloader
    disposed and makes no call.  It does not stop a later trigger: the
    job is then called once and all its calls are made, and once the
    callback has run the downloader shows the folder of the job's
    result.  The downloader stays disposed, every later [dispose] changes
    nothing, and the log never holds more than the calls of the job: the
    downloader never asks for the folder to be removed. *)
Theorem dispose_before_trigger_leaks_folder :
  forall (job : Job) (w0 : World) (ops : list op) (s : System)
         (returned : list nat),
    history job w0 (Dispose :: ops) = (s, returned) ->
    let s1 := fst (step {| downloader := newDownloader job; world := w0 |} Dispose) in
    (_disposed (downloader s1) = true /\ log (world s1) = log w0) /\
    _disposed (downloader s) = true /\
    (existsb isTrigger ops = true ->
       jobCalls (world s) = S (jobCalls w0) /\
       log (world s) = snd (job (log w0))) /\
    (existsb isTrigger ops = false -> log (world s) = log w0) /\
    (forall p,
        _downloadPromise (downloader s) = Some p ->
        promiseState_ p = ResolvedWithThis ->
        exists result,
          fst (job (log w0)) = Normal (Settled result) /\
          folderPath (downloader s) = result_folderPath result) /\
    dispose (downloader s) (log (world s)) = (Normal (downloader s), log (world s)).
Proof.
  intros job w0 ops s returned Hrun s1. unfold history in Hrun.
  pose proof (memoized_run job w0 (Dispose :: ops) _ (memoized_new job w0)) as Hmemo.
  rewrite Hrun in Hmemo. simpl in Hmemo.
  simpl in Hrun.
  assert (Hearly : disposedEarly job w0 s1).
  { unfold s1, disposedEarly. simpl. repeat split. destruct w0; reflexivity. }
  pose proof (disposedEarly_run job w0 ops s1 Hearly) as Hinv.
  pose proof (triggered_run ops s1) as Htrig.
  pose proof (untriggered_run ops s1) as Huntrig.
  change ((let '(s'', more) := run s1 ops in (s'', more)) = (s, returned)) in Hrun.
  destruct (run s1 ops) as [s'' more]. injection Hrun as -> ->. simpl in *.
  destruct Hinv as (Hjob & Hdisp & Hp).
  split; [split; [reflexivity | reflexivity] |].
  split; [exact Hdisp |].
  split; [| split; [| split]].
  - intros H. specialize (Htrig (or_introl H)).
    destruct (_downloadPromise (downloader s)); [|contradiction].
    destruct Hp; auto.
  - intros H. specialize (Huntrig H eq_refl).
    rewrite Huntrig in Hp. rewrite Hp. reflexivity.
  - intros p Hsome Hres. destruct Hmemo as (_ & _ & Hm).
    rewrite Hsome in Hm. destruct Hm as (_ & _ & _ & Hst).
    rewrite Hres in Hst. destruct Hst as (result & H1 & H2 & _). eauto.
  - unfold dispose. rewrite Hdisp. reflexivity.
Qed.

(** ** Properties of [parseInt] and of the option builders *)

(** Reading back the digits of a decimal numeral. *)
Lemma parseDigits_string_of_uint (u : uint) :
  forall a : N,
    parseDigits 10 (Some a) (NilEmpty.string_of_uint u) =
    Some (match a with
          | N0 => Pos.of_uint u
          | N.pos q => N.pos (Pos.of_uint_acc u q)
          end).
Proof.
  induction u; intros a;
    cbn [NilEmpty.string_of_uint parseDigits];
    try (destruct a; reflexivity);
    match goal with
    | |- context [digitValue ?c] =>
        let v := eval vm_compute in (digitValue c) in
        change (digitValue c) with v
    end;
    cbv iota beta;
    match goal with
    | |- context [(?d <? 10)%N] => change ((d <? 10)%N) with true
    end;
    cbv iota; rewrite IHu; f_equal;
    destruct a as [|q]; try reflexivity;
    cbn [N.mul N.add Pos.of_uint_acc]; do 2 f_equal; lia.
Qed.
Lemma parseDigits_numeral (u : uint) :
  u <> Nil ->
  parseDigits 10 None (NilEmpty.string_of_uint u) = Some (Pos.of_uint u).
Proof.
  destruct u; intros Hu; try contradiction;
    cbn [NilEmpty.string_of_uint parseDigits];
    match goal with
    | |- context [digitValue ?c] =>
        let v := eval vm_compute in (digitValue c) in
        change (digitValue c) with v
    end;
    cbv iota beta;
    match goal with
    | |- context [(?d <? 10)%N] => change ((d <? 10)%N) with true
    end;
    cbv iota; rewrite parseDigits_string_of_uint; reflexivity.
Qed.

(** A decimal numeral has no leading white space, no sign and no [0x]
    prefix. *)
Lemma parseIntString_numeral (u : uint) :
  u <> Nil ->
  parseIntString (NilEmpty.string_of_uint u) = Int (Z.of_N (Pos.of_uint u)) /\
  parseIntString (String "-" (NilEmpty.string_of_uint u))
    = Int (- Z.of_N (Pos.of_uint u)).
Proof.
  intros Hu. pose proof (parseDigits_numeral u Hu) as Hd.
  unfold parseIntString.
  destruct u as [|u|u|u|u|u|u|u|u|u|u]; try contradiction;
    destruct u; cbn [NilEmpty.string_of_uint] in *;
    cbn -[parseDigits Z.mul Z.of_N Pos.of_uint]; rewrite Hd;
    split; f_equal; lia.
Qed.

(** [parseInt] reads back the decimal rendering of every integer. *)
Lemma parseIntString_decimal (z : Z) : parseIntString (decimal z) = Int z.
Proof.
  unfold decimal.
  rewrite <- (DecimalZ.of_to z) at 2.
  destruct z as [|p|p]; [reflexivity | |]; cbn [Z.to_int NilZero.string_of_int].
  - pose proof (Unsigned.to_uint_nonnil p) as Hn.
    unfold NilZero.string_of_uint.
    destruct (Pos.to_uint p) eqn:E; try contradiction;
      rewrite <- E in *;
      apply (parseIntString_numeral _ Hn).
  - pose proof (Unsigned.to_uint_nonnil p) as Hn.
    unfold NilZero.string_of_uint.
    destruct (Pos.to_uint p) eqn:E; try contradiction;
      rewrite <- E in *;
      destruct (parseIntString_numeral _ Hn) as [_ H]; rewrite H;
      reflexivity.
Qed.
Lemma parseInt_JNum (n : Z) : parseInt (JNum n) = Normal (Int n).
Proof. unfold parseInt. simpl. rewrite parseIntString_decimal. reflexivity. Qed.

Lemma parseDigits_started (R : N) (s : string) :
  forall a, exists n, parseDigits R (Some a) s = Some n.
Proof.
  induction s as [|c r IH]; intros a; simpl; eauto.
  destruct (digitValue c) as [d|]; eauto.
  destruct (d <? R)%N; eauto.
Qed.

Lemma startsWithDigit_cases (c : ascii) (r : string) :
  startsWithDigit (String c r) = true ->
  In c ["0"; "1"; "2"; "3"; "4"; "5"; "6"; "7"; "8"; "9"]%char.
Proof.
  destruct c as [[] [] [] [] [] [] [] []]; simpl;
    intros H; try discriminate H; tauto.
Qed.

Lemma parseIntString_unsigned (s : string) :
  allNumberChars s = true ->
  startsWithDigit s = true ->
  exists w,
    parseIntString s = Int w /\ parseIntString (String "-" s) = Int (- w).
Proof.
  destruct s as [|c r]; [discriminate |].
  intros Hall Hdigit.
  pose proof (startsWithDigit_cases c r Hdigit) as Hc.
  simpl in Hall. apply andb_true_iff in Hall. destruct Hall as [_ Hall].
  assert (Hgo : forall d : N, exists n, parseDigits 10 (Some d) r = Some n)
    by (intros d; apply parseDigits_started).
  simpl in Hc.
  destruct Hc as [<-|[<-|[<-|[<-|[<-|[<-|[<-|[<-|[<-|[<-|[]]]]]]]]]]];
    try (match goal with
         | |- context [String ?c r] =>
             let v := eval vm_compute in (digitValue c) in
             match v with
             | Some ?d =>
                 destruct (Hgo d) as [n Hn]; exists (Z.of_N n);
                 unfold parseIntString;
                 cbn -[parseDigits Z.mul Z.of_N];
                 cbn [parseDigits];
                 change (digitValue c) with (Some d);
                 cbv iota beta;
                 change ((d <? 10)%N) with true; cbv iota;
                 rewrite Hn; split; f_equal; lia
             end
         end).
  (* a leading 0: the next character is not an x *)
  destruct r as [|x r'].
  - exists 0. split; reflexivity.
  - simpl in Hall. apply andb_true_iff in Hall. destruct Hall as [Hx _].
    destruct (Hgo 0%N) as [n Hn]. exists (Z.of_N n).
    unfold parseIntString.
    assert (Hzero : forall rest,
               parseDigits 10 None (String "0" rest)
               = parseDigits 10 (Some 0%N) rest) by reflexivity.
    destruct x as [[] [] [] [] [] [] [] []]; try discriminate Hx;
      cbn -[parseDigits Z.mul Z.of_N];
      rewrite Hzero, Hn; split; f_equal; lia.
Qed.

(** The string form of a Number always starts with an integer. *)
Lemma parseIntString_number (s : string) :
  isNumberString s = true -> exists w, parseIntString s = Int w.
Proof.
  unfold isNumberString. intros H. apply andb_true_iff in H.
  destruct H as [Hall Hstart].
  destruct s as [|c r]; [discriminate |].
  destruct (Ascii.eqb_spec c "-") as [->|Hc].
  - simpl in Hall.
    destruct (parseIntString_unsigned r Hall Hstart) as (w & _ & Hneg).
    exists (- w). exact Hneg.
  - assert (Hs : startsWithDigit (String c r) = true).
    { destruct c as [[] [] [] [] [] [] [] []]; try exact Hstart;
        exfalso; apply Hc; reflexivity. }
    destruct (parseIntString_unsigned _ Hall Hs) as (w & Hpos & _).
    exists w. exact Hpos.
Qed.

Lemma export_width_spec (width : JsValue) (f : string) :
  export_width width = Normal f <->
  exists w, parseInt width = Normal (Int w) /\ f = "--export-width=" ++ decimal w.
Proof.
  unfold export_width.
  destruct (parseInt width) as [[|w]|e]; simpl; split;
    try discriminate;
    try (intros (w' & H & _); discriminate).
  - intros H. injection H as <-. eauto.
  - intros (w' & H & ->). injection H as ->. reflexivity.
Qed.

Lemma export_height_spec (height : JsValue) (f : string) :
  export_height height = Normal f <->
  exists h, parseInt height = Normal (Int h) /\ f = "--export-height=" ++ decimal h.
Proof.
  unfold export_height.
  destruct (parseInt height) as [[|h]|e]; simpl; split;
    try discriminate;
    try (intros (h' & H & _); discriminate).
  - intros H. injection H as <-. eauto.
  - intros (h' & H & ->). injection H as ->. reflexivity.
Qed.

Lemma export_area_spec (area : JsValue) (f : string) :
  export_area area = Normal f <->
  exists x0 y0 x1 y1,
    areaBound area "x0" = Normal (Int x0) /\
    areaBound area "y0" = Normal (Int y0) /\
    areaBound area "x1" = Normal (Int x1) /\
    areaBound area "y1" = Normal (Int y1) /\
    f = "--export-area=" ++ decimal x0 ++ ":" ++ decimal y0 ++ ":"
          ++ decimal x1 ++ ":" ++ decimal y1.
Proof.
  unfold export_area.
  change (v <- Get area "x0" ;; parseInt v) with (areaBound area "x0").
  change (v <- Get area "y0" ;; parseInt v) with (areaBound area "y0").
  change (v <- Get area "x1" ;; parseInt v) with (areaBound area "x1").
  change (v <- Get area "y1" ;; parseInt v) with (areaBound area "y1").
  cbn [bind ret Monad_completion].
  destruct (areaBound area "x0") as [[|x0]|e0];
    destruct (areaBound area "y0") as [[|y0]|e1];
    destruct (areaBound area "x1") as [[|x1]|e2];
    destruct (areaBound area "y1") as [[|y1]|e3];
    simpl; split;
    try (intros H; discriminate H);
    try (intros (a & b & c & d & H1 & H2 & H3 & H4 & _); congruence).
  - intros H. injection H as <-. exists x0, y0, x1, y1. auto.
  - intros (a & b & c & d & H1 & H2 & H3 & H4 & ->).
    injection H1 as ->. injection H2 as ->. injection H3 as ->. injection H4 as ->.
    reflexivity.
Qed.

Lemma typeof_string (v : JsValue) :
  typeof v = "string" <-> exists s, v = JStr s.
Proof.
  split.
  - destruct v; simpl; try discriminate. eauto.
  - intros [s ->]. reflexivity.
Qed.

(** Every finite Number is read by [parseInt]: a fraction through its
    integer part, a magnitude in exponent form through its first digit. *)
Lemma parseInt_number (v : JsValue) :
  wellFormed v = true ->
  typeof v = "number" ->
  isInfinity v = false ->
  exists w, parseInt v = Normal (Int w).
Proof.
  destruct v; cbn [wellFormed typeof]; intros Hwf Htype Hfin;
    try discriminate Htype.
  - exists n. apply parseInt_JNum.
  - rewrite Hfin, orb_false_r in Hwf.
    destruct (parseIntString_number repr Hwf) as [w Hw].
    exists w. unfold parseInt. simpl. rewrite Hw. reflexivity.
Qed.

(** C9, as the code has it.  [export-png] accepts exactly the strings.
    [export-width] and [export-height] accept exactly the parameters
    [parseInt] turns into a number, and [export-area] exactly those whose
    [x0], [y0], [x1] and [y1] it turns into numbers.  So every finite
    Number is accepted, an integer as it is, a fraction such as 12.5
    through its integer part and a magnitude such as 1e21 through its
    leading digit, and so is, for one, the string [12px]; an infinite
    Number is refused.  When the integers read are safe integers, the
    flag carries them in decimal.  In every other case the builder
    throws a message. *)
Theorem option_builders_validate_with_parseInt :
  forall folderPath : string,
    (forall v f,
        export_png folderPath v = Normal f <->
        exists s, v = JStr s /\ f = "--export-png=" ++ folderPath ++ "/" ++ s) /\
    (forall v,
        wellFormed v = true ->
        ((exists f, export_width v = Normal f) <->
         (exists w, parseInt v = Normal (Int w))) /\
        ((exists f, export_height v = Normal f) <->
         (exists h, parseInt v = Normal (Int h))) /\
        (forall w,
            parseInt v = Normal (Int w) ->
            isSafeInteger w = true ->
            export_width v = Normal ("--export-width=" ++ decimal w) /\
            export_height v = Normal ("--export-height=" ++ decimal w))) /\
    (forall area,
        wellFormed area = true ->
        ((exists f, export_area area = Normal f) <->
         (exists x0 y0 x1 y1,
             areaBound area "x0" = Normal (Int x0) /\
             areaBound area "y0" = Normal (Int y0) /\
             areaBound area "x1" = Normal (Int x1) /\
             areaBound area "y1" = Normal (Int y1))) /\
        (forall x0 y0 x1 y1,
            areaBound area "x0" = Normal (Int x0) ->
            areaBound area "y0" = Normal (Int y0) ->
            areaBound area "x1" = Normal (Int x1) ->
            areaBound area "y1" = Normal (Int y1) ->
            isSafeInteger x0 && isSafeInteger y0
              && isSafeInteger x1 && isSafeInteger y1 = true ->
            export_area area
              = Normal ("--export-area=" ++ decimal x0 ++ ":" ++ decimal y0 ++ ":"
                          ++ decimal x1 ++ ":" ++ decimal y1))) /\
    (forall v,
        wellFormed v = true ->
        ((exists f, export_png folderPath v = Normal f) \/
         (exists msg, export_png folderPath v = Throw (ExnString msg))) /\
        ((exists f, export_width v = Normal f) \/
         (exists msg, export_width v = Throw (ExnString msg))) /\
        ((exists f, export_height v = Normal f) \/
         (exists msg, export_height v = Throw (ExnString msg))) /\
        ((exists f, export_area v = Normal f) \/
         (exists msg, export_area v = Throw (ExnString msg)))) /\
    (forall v,
        wellFormed v = true ->
        typeof v = "number" ->
        isInfinity v = false ->
        (exists f, export_width v = Normal f) /\
        (exists f, export_height v = Normal f)) /\
    (forall n : Z,
        isSafeInteger n = true ->
        export_width (JNum n) = Normal ("--export-width=" ++ decimal n) /\
        export_height (JNum n) = Normal ("--export-height=" ++ decimal n)) /\
    (forall x0 y0 x1 y1 : Z,
        isSafeInteger x0 && isSafeInteger y0
          && isSafeInteger x1 && isSafeInteger y1 = true ->
        export_area (JObj [("x0", JNum x0); ("y0", JNum y0);
                           ("x1", JNum x1); ("y1", JNum y1)])
          = Normal ("--export-area=" ++ decimal x0 ++ ":" ++ decimal y0 ++ ":"
                      ++ decimal x1 ++ ":" ++ decimal y1)) /\
    export_width (JStr "12px") = Normal "--export-width=12" /\
    export_width (JDouble "12.5") = Normal "--export-width=12" /\
    export_width (JDouble "1e+21") = Normal "--export-width=1" /\
    export_width (JDouble "Infinity")
      = Throw (ExnString "Expected a number parameter but NaN detected.").
Proof.
  intros folderPath.
  split; [| split; [| split; [| split; [| split; [| split]]]]].
  - intros v f. unfold export_png. split.
    + destruct v; simpl; try discriminate.
      intros H. injection H as <-. eauto.
    + intros (s & -> & ->). reflexivity.
  - intros v _. split; [| split].
    + split.
      * intros [f Hf]. apply export_width_spec in Hf.
        destruct Hf as (w & Hw & _). eauto.
      * intros [w Hw]. eexists. apply export_width_spec. eauto.
    + split.
      * intros [f Hf]. apply export_height_spec in Hf.
        destruct Hf as (h & Hh & _). eauto.
      * intros [h Hh]. eexists. apply export_height_spec. eauto.
    + intros w Hw _. split.
      * apply export_width_spec. eauto.
      * apply export_height_spec. eauto.
  - intros area _. split.
    + split.
      * intros [f Hf]. apply export_area_spec in Hf.
        destruct Hf as (x0 & y0 & x1 & y1 & H0 & H1 & H2 & H3 & _).
        exists x0, y0, x1, y1. auto.
      * intros (x0 & y0 & x1 & y1 & H0 & H1 & H2 & H3).
        eexists. apply export_area_spec.
        exists x0, y0, x1, y1. repeat split; eauto.
    + intros x0 y0 x1 y1 H0 H1 H2 H3 _. apply export_area_spec.
      exists x0, y0, x1, y1. auto.
  - intros v _. unfold export_png, export_width, export_height, export_area.
    change (v0 <- Get v "x0" ;; parseInt v0) with (areaBound v "x0").
    change (v0 <- Get v "y0" ;; parseInt v0) with (areaBound v "y0").
    change (v0 <- Get v "x1" ;; parseInt v0) with (areaBound v "x1").
    change (v0 <- Get v "y1" ;; parseInt v0) with (areaBound v "y1").
    cbn [bind ret Monad_completion].
    split; [| split; [| split]].
    + destruct v; simpl; eauto.
    + destruct (parseInt v) as [[|w]|e]; simpl; eauto.
    + destruct (parseInt v) as [[|h]|e]; simpl; eauto.
    + destruct (areaBound v "x0") as [[|x0]|e0];
        destruct (areaBound v "y0") as [[|y0]|e1];
        destruct (areaBound v "x1") as [[|x1]|e2];
        destruct (areaBound v "y1") as [[|y1]|e3];
        simpl; eauto.
  - intros v Hwf Htype Hfin.
    destruct (parseInt_number v Hwf Htype Hfin) as [w Hw]. split.
    + eexists. apply export_width_spec. eauto.
    + eexists. apply export_height_spec. eauto.
  - intros n _. split.
    + apply export_width_spec. exists n. split; [apply parseInt_JNum | reflexivity].
    + apply export_height_spec. exists n. split; [apply parseInt_JNum | reflexivity].
  - split; [| repeat split].
    intros x0 y0 x1 y1 _. apply export_area_spec.
    exists x0, y0, x1, y1.
    unfold areaBound. cbn [Get assoc String.eqb Ascii.eqb Bool.eqb bind Monad_completion].
    repeat split; try apply parseInt_JNum.
Qed.

(** C9, as the specification words it, fails for [export-width]: a
    parameter that is not an integer is not always refused. *)
Lemma export_width_accepts_non_integer :
  ~ (forall v, isInteger v = false -> exists e, export_width v = Throw e).
Proof.
  intros H. destruct (H (JStr "12px") eq_refl) as [e He]. discriminate He.
Qed.

(** *** Dispatch through [supportedInkscapeOptions] *)

Lemma callOption_unknown (folderPath option : string) (arg : JsValue) :
  ~ In option (ownOptionNames ++ inheritedOptionNames) ->
  callOption folderPath option arg = Throw TypeError.
Proof.
  intros Hnot. unfold callOption.
  repeat match goal with
         | |- context [String.eqb option ?k] =>
             destruct (String.eqb_spec option k) as [->|_];
             [exfalso; apply Hnot; simpl; tauto |]
         end.
  reflexivity.
Qed.

Lemma callOption_not_a_number (folderPath : string) :
  callOption folderPath "export-width" (JStr "not-a-number")
    = Throw (ExnString "Expected a number parameter but NaN detected.").
Proof. reflexivity. Qed.

(** A key that names [Object.prototype.toString] is not refused. *)
Lemma callOption_toString (folderPath : string) (arg : JsValue) :
  callOption folderPath "toString" arg = Normal (AVal (JStr "[object Object]")).
Proof. reflexivity. Qed.

(** ** Properties of the jobs *)

Section JobProperties.

Variable pf : Platform.
Variable env : Env.

Lemma textJob_shapes (text fileName folderPath : string) (r : DownloadResult) :
  produces (textJob pf env text fileName folderPath) r -> threeShapes folderPath r.
Proof.
  intros [l H]. unfold textJob in H. run_job.
  destruct (mkdir_ok env l folderPath); simpl in H.
  - destruct (writeFile_ok env _ _ _); simpl in H;
      shape_of H.
  - shape_of H.
Qed.

Lemma gitJob_shapes (url folderPath : string) (r : DownloadResult) :
  produces (gitJob env url folderPath) r -> threeShapes folderPath r.
Proof.
  intros [l H]. unfold gitJob in H. run_job.
  destruct (exists_ok env l folderPath); simpl in H.
  - shape_of H.
  - destruct (exec_err env _ _ _); simpl in H;
      shape_of H.
Qed.

Lemma tarballJob_shapes (tarballPath folderPath : string) (r : DownloadResult) :
  produces (tarballJob env tarballPath folderPath) r -> threeShapes folderPath r.
Proof.
  intros [l H]. unfold tarballJob in H. run_job.
  destruct (mkdir_ok env l folderPath); simpl in H.
  - destruct (exec_err env _ _ _); simpl in H;
      shape_of H.
  - shape_of H.
Qed.

(** The handlers never throw, and whatever they resolve the promise with
    has one of the three shapes. *)
Lemma handleEvents_shapes (url folderPath : string) (events : list streamEvent) :
  forall promise l,
    exists promise' l',
      handleEvents url folderPath events promise l = (Normal promise', l') /\
      (forall r, promise' = Some r ->
         promise = Some r \/ threeShapes folderPath r).
Proof.
  induction events as [|ev rest IH]; intros promise l; simpl.
  - run_job. eauto.
  - destruct ev as [statusCode|err|].
    + destruct ((statusCode <? 200) || (statusCode >=? 400)).
      * destruct (IH (fulfill promise
                   (mkDownloadResult None
                      (Some (UserErrors.LoadingBadResponse url statusCode)))) l)
          as (p' & l' & -> & Hp).
        exists p', l'. split; auto. intros r Hr.
        destruct (Hp r Hr) as [H|H]; auto.
        destruct promise; simpl in H; [auto|].
        injection H as <-. right. unfold threeShapes; eauto.
      * apply IH.
    + run_job.
      destruct (IH (fulfill promise
                   (mkDownloadResult None
                      (Some (UserErrors.LoadingError url err))))
                  (l ++ [utils_rmdirRecursive folderPath])%list)
        as (p' & l' & -> & Hp).
      exists p', l'. split; auto. intros r Hr.
      destruct (Hp r Hr) as [H|H]; auto.
      destruct promise; simpl in H; [auto|].
      injection H as <-. right. unfold threeShapes; eauto.
    + destruct (IH (fulfill promise (mkDownloadResult (Some folderPath) None)) l)
        as (p' & l' & -> & Hp).
      exists p', l'. split; auto. intros r Hr.
      destruct (Hp r Hr) as [H|H]; auto.
      destruct promise; simpl in H; [auto|].
      injection H as <-. right. unfold threeShapes; eauto.
Qed.

Lemma urlJob_shapes (url fileName folderPath : string) (r : DownloadResult) :
  produces (urlJob pf env url fileName folderPath) r -> threeShapes folderPath r.
Proof.
  intros [l H]. unfold urlJob in H. run_job.
  destruct (mkdir_ok env l folderPath); simpl in H.
  - match type of H with
    | context [handleEvents ?u ?f ?evs ?p ?l0] =>
        destruct (handleEvents_shapes u f evs p l0) as (p' & l' & Heq & Hp);
        rewrite Heq in H
    end.
    simpl in H. destruct p' as [r'|]; simpl in H; [|discriminate].
    injection H as <-.
    destruct (Hp r' eq_refl) as [Hn|Hs]; [discriminate | exact Hs].
  - shape_of H.
Qed.

Lemma saveImages_shapes (folderPath : string) (imgs : list Image) :
  forall l r l',
    saveImages pf env folderPath imgs l = (Normal (Some r), l') ->
    threeShapes folderPath r.
Proof.
  induction imgs as [|img rest IH]; intros l r l' H; simpl in H.
  - run_job. discriminate.
  - destruct (dataUriRE_exec pf (imageDataUrl img)) as [[encoding data]|].
    + unfold newBuffer in H. run_job.
      destruct (Buffer_isEncoding pf encoding); simpl in H; [|discriminate].
      destruct (writeFile_ok env _ _ _); simpl in H.
      * eapply IH; eauto.
      * shape_of H.
    + run_job. shape_of H.
Qed.

Lemma convoluteImages_shapes (folderPath : string) (imgs : list Image) :
  forall l r l',
    convoluteImages pf env folderPath imgs l = (Normal (Some r), l') ->
    r = mkDownloadResult None None.
Proof.
  induction imgs as [|img rest IH]; intros l r l' H; simpl in H.
  - run_job. discriminate.
  - destruct (truthy (inkscape img)); [|eauto].
    run_job.
    destruct (ObjectKeys (inkscape img)) as [keys|]; simpl in H; [|discriminate].
    destruct (collectOptions folderPath (inkscape img) keys) as [flags|]; simpl in H.
    + destruct (executeCommand_ok env _ _ _); simpl in H.
      * destruct (joinArgs _); simpl in H; [eauto | discriminate].
      * injection H as <- _. reflexivity.
    + injection H as <- _. reflexivity.
Qed.

Lemma jsonJob_shapes (jsonData : JsonData) (fileName folderPath : string)
    (r : DownloadResult) :
  produces (jsonJob pf env jsonData fileName folderPath) r ->
  threeShapes folderPath r.
Proof.
  intros [l H]. unfold jsonJob in H. run_job.
  destruct (mkdir_ok env l folderPath); simpl in H.
  - destruct (writeFile_ok env _ _ _); simpl in H.
    + destruct (saveImages pf env folderPath (images jsonData) _)
        as [[[early|]|e] l1] eqn:Esave; simpl in H; try discriminate.
      * injection H as <-. eapply saveImages_shapes; eauto.
      * destruct (convoluteImages pf env folderPath (images jsonData) l1)
          as [[[early|]|e] l2] eqn:Econv; simpl in H; try discriminate.
        -- injection H as <-.
           rewrite (convoluteImages_shapes _ _ _ _ _ Econv).
           unfold threeShapes; auto.
        -- shape_of H.
    + shape_of H.
  - shape_of H.
Qed.

(** C3.  Whatever result one of the five jobs of a manager produces, it
    is a success carrying the folder the manager allocated and no user
    error, or a user error and no folder, or neither; a folder together
    with a user error is never produced. *)
Theorem results_have_three_shapes :
  forall (this : DownloadManager) (r : DownloadResult),
    let folderPath := fst (_nextName pf this) in
    ((forall text fileName,
        produces (_downloadJob (fst (createTextDownloader pf env this text fileName))) r ->
        threeShapes folderPath r) /\
     (forall url,
        produces (_downloadJob (fst (createGitDownloader pf env this url))) r ->
        threeShapes folderPath r) /\
     (forall url fileName,
        produces (_downloadJob (fst (createURLDownloader pf env this url fileName))) r ->
        threeShapes folderPath r) /\
     (forall tarballPath,
        produces (_downloadJob (fst (createTarballExtractor pf env this tarballPath))) r ->
        threeShapes folderPath r) /\
     (forall jsonData fileName,
        produces (_downloadJob (fst (createJsonDownloader pf env this jsonData fileName))) r ->
        threeShapes folderPath r)) /\
    (threeShapes folderPath r ->
     ~ (exists folder error,
          result_folderPath r = Some folder /\ result_userError r = Some error)).
Proof.
  intros this r folderPath. split.
  - repeat split; intros; simpl in *.
    + eapply textJob_shapes; eauto.
    + eapply gitJob_shapes; eauto.
    + eapply urlJob_shapes; eauto.
    + eapply tarballJob_shapes; eauto.
    + eapply jsonJob_shapes; eauto.
  - intros [->|[[error ->]| ->]] (folder & error' & H1 & H2); simpl in *;
      discriminate.
Qed.


(** *** The url job *)

Lemma handleEvents_settled (url folderPath : string) (events : list streamEvent) :
  forall r l,
    fst (handleEvents url folderPath events (Some r) l) = Normal (Some r).
Proof.
  induction events as [|ev rest IH]; intros r l; simpl.
  - reflexivity.
  - destruct ev as [statusCode|err|]; simpl.
    + destruct ((statusCode <? 200) || (statusCode >=? 400)); apply IH.
    + run_job. apply IH.
    + apply IH.
Qed.

Lemma handleEvents_quiet (url folderPath : string) (pre rest : list streamEvent) :
  Forall (fun ev => quiet ev = true) pre ->
  forall promise l,
    handleEvents url folderPath (pre ++ rest) promise l =
    handleEvents url folderPath rest promise l.
Proof.
  induction 1 as [|ev pre Hev Hpre IH]; intros promise l; simpl; auto.
  destruct ev as [statusCode|err|]; simpl in Hev; try discriminate.
  apply andb_true_iff in Hev. destruct Hev as [H1 H2].
  apply Z.leb_le in H1. apply Z.ltb_lt in H2.
  replace (statusCode <? 200) with false by (symmetry; apply Z.ltb_ge; lia).
  replace (statusCode >=? 400) with false
    by (symmetry; rewrite Z.geb_leb; apply Z.leb_gt; lia).
  simpl. apply IH.
Qed.


Lemma handleEvents_no_error (url folderPath : string) (events : list streamEvent) :
  Forall (fun ev => isError ev = false) events ->
  forall promise l, snd (handleEvents url folderPath events promise l) = l.
Proof.
  induction 1 as [|ev rest Hev Hrest IH]; intros promise l; simpl; auto.
  destruct ev as [statusCode|err|]; simpl in Hev; try discriminate.
  - destruct ((statusCode <? 200) || (statusCode >=? 400)); apply IH.
  - apply IH.
Qed.

Lemma handleEvents_log_grows (url folderPath : string) (events : list streamEvent) :
  forall promise l,
    exists l', snd (handleEvents url folderPath events promise l) = (l ++ l')%list.
Proof.
  induction events as [|ev events IH]; intros promise l; simpl.
  - exists []. rewrite app_nil_r. reflexivity.
  - destruct ev as [statusCode|err|].
    + destruct ((statusCode <? 200) || (statusCode >=? 400)); apply IH.
    + run_job.
      destruct (IH (fulfill promise
                      (mkDownloadResult None
                         (Some (UserErrors.LoadingError url err))))
                   (l ++ [utils_rmdirRecursive folderPath])%list) as [l' ->].
      exists (utils_rmdirRecursive folderPath :: l').
      rewrite <- app_assoc. reflexivity.
    + apply IH.
Qed.

(** The sibling path: when the stream reports an error first, the folder
    is removed and the result carries the loading error. *)
Lemma urlJob_stream_error_removes_folder
    (url fileName folderPath : string) (l : list call)
    (pre rest : list streamEvent) (err : string) :
  mkdir_ok env l folderPath = true ->
  Forall (fun ev => quiet ev = true) pre ->
  urlEvents pf env url fileName folderPath l = (pre ++ EvError err :: rest)%list ->
  exists l',
    urlJob pf env url fileName folderPath l =
      (Normal (Settled (mkDownloadResult None
                 (Some (UserErrors.LoadingError url err)))),
       (l ++ [utils_mkdir folderPath;
              fs_createWriteStream (path_join pf folderPath fileName);
              request_get url 5000;
              utils_rmdirRecursive folderPath] ++ l')%list).
Proof.
  intros Hmk Hpre Hev.
  unfold urlJob. run_job. rewrite Hmk. simpl.
  unfold urlEvents in Hev. rewrite <- app_assoc. simpl. rewrite Hev.
  rewrite (handleEvents_quiet url folderPath pre _ Hpre). simpl. run_job.
  match goal with
  | |- context [handleEvents ?u ?f ?evs (Some ?r) ?l0] =>
      pose proof (handleEvents_settled u f evs r l0) as Hs;
      destruct (handleEvents_log_grows u f evs (Some r) l0) as [l' Hl];
      destruct (handleEvents u f evs (Some r) l0) as [[promise|e] l'']
  end; simpl in Hs, Hl |- *; [|discriminate].
  injection Hs as ->. subst l''. exists l'.
  rewrite <- !app_assoc. reflexivity.
Qed.

(** C5, as the code has it.  When the response has a status outside
    [200, 400) and no stream error follows, the url job settles with the
    bad-response error having made three calls only: it created the
    folder, opened the file and sent the request.  It does not remove
    the folder. *)
Theorem urlJob_bad_status_keeps_folder :
  forall (this : DownloadManager) (url fileName : string) (l : list call)
         (statusCode : Z) (rest : list streamEvent),
    let folderPath := fst (_nextName pf this) in
    let job := _downloadJob (fst (createURLDownloader pf env this url fileName)) in
    mkdir_ok env l folderPath = true ->
    urlEvents pf env url fileName folderPath l = EvResponse statusCode :: rest ->
    statusCode < 200 \/ 400 <= statusCode ->
    Forall (fun ev => isError ev = false) rest ->
    job l =
      (Normal (Settled (mkDownloadResult None
                 (Some (UserErrors.LoadingBadResponse url statusCode)))),
       (l ++ [utils_mkdir folderPath;
              fs_createWriteStream (path_join pf folderPath fileName);
              request_get url 5000])%list).
Proof.
  intros this url fileName l statusCode rest folderPath job Hmk Hev Hbad Hrest.
  change job with (urlJob pf env url fileName folderPath).
  clearbody folderPath. clear job.
  unfold urlJob. run_job. rewrite Hmk. simpl.
  unfold urlEvents in Hev. rewrite <- app_assoc. simpl. rewrite Hev. simpl.
  replace ((statusCode <? 200) || (statusCode >=? 400)) with true.
  2:{ symmetry. apply orb_true_iff. destruct Hbad as [H|H].
      - left. apply Z.ltb_lt. exact H.
      - right. rewrite Z.geb_leb. apply Z.leb_le. exact H. }
  simpl.
  match goal with
  | |- context [handleEvents ?u ?f ?evs (Some ?r) ?l0] =>
      pose proof (handleEvents_settled u f evs r l0) as Hs;
      pose proof (handleEvents_no_error u f evs Hrest (Some r) l0) as Hl;
      destruct (handleEvents u f evs (Some r) l0) as [[promise|e] l']
  end; simpl in Hs, Hl |- *; [|discriminate].
  injection Hs as ->. subst l'. rewrite <- app_assoc. reflexivity.
Qed.

(** *** The git job *)


(** *** The json job *)

Lemma saveImages_first_malformed (folderPath : string)
    (before : list Image) (img : Image) (after : list Image) :
  (forall h p d, writeFile_ok env h p d = true) ->
  Forall (decodable pf) before ->
  dataUriRE_exec pf (imageDataUrl img) = None ->
  forall l,
    saveImages pf env folderPath (before ++ img :: after) l =
      (Normal (Some (mkDownloadResult None
                 (Some (UserErrors.ImageDataUrlExtractionFailed (name img))))),
       (l ++ imageWrites pf folderPath before
          ++ [utils_rmdirRecursive folderPath])%list).
Proof.
  intros Hw Hbefore Hbad.
  induction Hbefore as [|b before Hb Hrest IH]; intros l; simpl.
  - rewrite Hbad. run_job. reflexivity.
  - destruct Hb as (encoding & data & -> & Henc).
    unfold newBuffer. rewrite Henc. run_job. rewrite Hw. simpl.
    rewrite IH. rewrite <- app_assoc. reflexivity.
Qed.

(** X23.  In the json job of a manager, when folder and files can be
    written and the images before it are decodable, the first image
    whose data URI is malformed ends the job: the calls made are the
    creation of the folder, the writing of the text file and of the
    images before the offending one, and then the recursive removal of
    the folder; no later image is touched and inkscape is not run.  The
    result has no folder and its user error is the message naming the
    offending image. *)
Theorem jsonJob_malformed_image_aborts :
  forall (this : DownloadManager) (jsonData : JsonData) (fileName : string)
         (before : list Image) (img : Image) (after : list Image)
         (l : list call),
    let folderPath := fst (_nextName pf this) in
    let job := _downloadJob (fst (createJsonDownloader pf env this jsonData fileName)) in
    (forall h p, mkdir_ok env h p = true) ->
    (forall h p d, writeFile_ok env h p d = true) ->
    images jsonData = (before ++ img :: after)%list ->
    Forall (decodable pf) before ->
    dataUriRE_exec pf (imageDataUrl img) = None ->
    job l =
      (Normal (Settled (mkDownloadResult None
                 (Some (UserErrors.ImageDataUrlExtractionFailed (name img))))),
       (l ++ [utils_mkdir folderPath;
              utils_writeFile (path_join pf folderPath fileName) (Text (text jsonData))]
          ++ imageWrites pf folderPath before
          ++ [utils_rmdirRecursive folderPath])%list).
Proof.
  intros this jsonData fileName before img after l folderPath job
         Hmk Hw Himgs Hbefore Hbad.
  change job with (jsonJob pf env jsonData fileName folderPath).
  clearbody folderPath. clear job.
  unfold jsonJob. run_job. rewrite Hmk. simpl. rewrite Hw. simpl.
  rewrite Himgs.
  rewrite (saveImages_first_malformed folderPath before img after Hw Hbefore Hbad).
  simpl. rewrite <- !app_assoc. reflexivity.
Qed.

(** An option that throws ends the second pass at once: no call is
    made for the image, the folder is kept, and the result has neither
    folder nor user error. *)
Lemma convoluteImages_option_failure (folderPath : string)
    (before : list Image) (img : Image) (after : list Image)
    (keys : list string) :
  Forall (fun i => truthy (inkscape i) = false) before ->
  truthy (inkscape img) = true ->
  ObjectKeys (inkscape img) = Normal keys ->
  collectOptions folderPath (inkscape img) keys = None ->
  forall l,
    convoluteImages pf env folderPath (before ++ img :: after) l =
      (Normal (Some (mkDownloadResult None None)), l).
Proof.
  intros Hbefore Htruthy Hkeys Hnone.
  induction Hbefore as [|b before Hb Hrest IH]; intros l; simpl.
  - rewrite Htruthy, Hkeys. run_job. rewrite Hnone. reflexivity.
  - rewrite Hb. apply IH.
Qed.

(** C8, as the code has it.  An option key that names
    [Object.prototype.toString] is outside the allow-list and yet is not
    refused: for a json job with one decodable image whose options are
    [{toString: arg}], in an environment where every call succeeds,
    inkscape is run with the extra argument [[object Object]] and the
    job succeeds with the allocated folder. *)
Theorem jsonJob_inherited_option_runs_inkscape :
  forall (this : DownloadManager) (text fileName : string) (img : Image)
         (arg : JsValue) (l : list call),
    let folderPath := fst (_nextName pf this) in
    let jsonData := {| text := text; images := [img] |} in
    let job := _downloadJob (fst (createJsonDownloader pf env this jsonData fileName)) in
    (forall h p, mkdir_ok env h p = true) ->
    (forall h p d, writeFile_ok env h p d = true) ->
    (forall h f a, executeCommand_ok env h f a = true) ->
    decodable pf img ->
    inkscape img = JObj [("toString", arg)] ->
    job l =
      (Normal (Settled (mkDownloadResult (Some folderPath) None)),
       (l ++ [utils_mkdir folderPath;
              utils_writeFile (path_join pf folderPath fileName) (Text text)]
          ++ imageWrites pf folderPath [img]
          ++ [utils_executeCommand "/usr/bin/inkscape"
                [AVal (JStr "--without-gui");
                 AVal (JStr ("--file=" ++ path_join pf folderPath (name img)));
                 AVal (JStr "[object Object]")]])%list).
Proof.
  intros this text fileName img arg l folderPath jsonData job
         Hmk Hw Hex (encoding & data & Huri & Henc) Hink.
  change job with (jsonJob pf env jsonData fileName folderPath).
  clearbody folderPath. clear job.
  unfold jsonJob, jsonData. run_job. rewrite Hmk. simpl. rewrite Hw. simpl.
  unfold imageWrites. simpl. rewrite Huri. unfold newBuffer. rewrite Henc.
  run_job. rewrite Hw. simpl. rewrite Hink. simpl. run_job.
  rewrite Hex. simpl. rewrite <- !app_assoc. reflexivity.
Qed.

End JobProperties.

(** ** The statements on examples *)

Lemma dispose_idempotent_terminal_witness :
  let job := textJob examplePlatform (exampleEnv None []) "hello" "a.tex"
               "/tmp/dl/tmp_1" in
  let ops := [Trigger; Callback] in
  let s := fst (history job emptyWorld ops) in
  history job emptyWorld ops = (s, [0%nat]) /\
  exists this' l',
    dispose (downloader s) (log (world s)) = (Normal this', l') /\
    dispose this' l' = (Normal this', l') /\
    _disposed this' = true /\
    (l' = log (world s) \/
     exists path, l' = (log (world s) ++ [utils_rmdirRecursive path])%list).
Proof.
  intros job ops s.
  assert (Hrun : history job emptyWorld ops = (s, [0%nat])) by reflexivity.
  split; [assumption |].
  exact (proj1 (proj2 (proj2 (proj2
           (dispose_idempotent_terminal job emptyWorld ops s [0%nat] Hrun))))).
Defined.

Lemma dispose_before_trigger_leaks_folder_witness :
  let job := textJob examplePlatform (exampleEnv None []) "hello" "a.tex"
               "/tmp/dl/tmp_1" in
  let ops := [Trigger; Callback; Dispose] in
  let s := fst (history job emptyWorld (Dispose :: ops)) in
  history job emptyWorld (Dispose :: ops) = (s, [0%nat]) /\
  _disposed (downloader s) = true /\
  (existsb isTrigger ops = true ->
   jobCalls (world s) = 1%nat /\ log (world s) = snd (job [])) /\
  folderPath (downloader s) = Some "/tmp/dl/tmp_1".
Proof.
  intros job ops s.
  assert (Hrun : history job emptyWorld (Dispose :: ops) = (s, [0%nat]))
    by reflexivity.
  split; [assumption |].
  destruct (dispose_before_trigger_leaks_folder job emptyWorld ops s [0%nat] Hrun)
    as (_ & H2 & H3 & _).
  split; [exact H2 | split; [exact H3 | reflexivity]].
Defined.


Lemma urlJob_bad_status_keeps_folder_witness :
  let url := "http://example.org/missing.tex" in
  let env := exampleEnv None [EvResponse 404; EvFinish] in
  (mkdir_ok env [] "/tmp/dl/tmp_1" = true /\
   urlEvents examplePlatform env url "main.tex" "/tmp/dl/tmp_1" []
     = [EvResponse 404; EvFinish] /\
   (404 < 200 \/ 400 <= 404) /\
   Forall (fun ev => isError ev = false) [EvFinish]) /\
  _downloadJob
    (fst (createURLDownloader examplePlatform env exampleManager url "main.tex")) []
    = (Normal (Settled (mkDownloadResult None
                 (Some "failed to download URL http://example.org/missing.tex - got response status 404"))),
       [utils_mkdir "/tmp/dl/tmp_1";
        fs_createWriteStream "/tmp/dl/tmp_1/main.tex";
        request_get url 5000]).
Proof.
  intros url env.
  assert (Hbad : 404 < 200 \/ 400 <= 404) by (right; lia).
  assert (Hrest : Forall (fun ev => isError ev = false) [EvFinish])
    by (constructor; [reflexivity | constructor]).
  split; [repeat split; try reflexivity; assumption |].
  exact (urlJob_bad_status_keeps_folder examplePlatform env exampleManager
           url "main.tex" [] 404 [EvFinish] eq_refl eq_refl Hbad Hrest).
Defined.


Lemma jsonJob_malformed_image_aborts_witness :
  let env := exampleEnv None [] in
  let good := {| name := "a.png"; imageDataUrl := "data:image/png;base64,AAAA";
                 inkscape := JUndefined |} in
  let bad := {| name := "b.png"; imageDataUrl := "not a data URI";
                inkscape := JUndefined |} in
  let jsonData := {| text := "hello"; images := [good; bad; good] |} in
  ((forall h p, mkdir_ok env h p = true) /\
   (forall h p d, writeFile_ok env h p d = true) /\
   images jsonData = ([good] ++ bad :: [good])%list /\
   Forall (decodable examplePlatform) [good] /\
   dataUriRE_exec examplePlatform (imageDataUrl bad) = None) /\
  _downloadJob
    (fst (createJsonDownloader examplePlatform env exampleManager jsonData "main.tex")) []
    = (Normal (Settled (mkDownloadResult None
                 (Some "failed to save image b.png -- expected image data URI"))),
       [utils_mkdir "/tmp/dl/tmp_1";
        utils_writeFile "/tmp/dl/tmp_1/main.tex" (Text "hello");
        utils_writeFile "/tmp/dl/tmp_1/a.png"
          (Buffer "data:image/png;base64,AAAA" "base64");
        utils_rmdirRecursive "/tmp/dl/tmp_1"]).
Proof.
  intros env good bad jsonData.
  assert (Hgood : Forall (decodable examplePlatform) [good]).
  { constructor; [| constructor].
    exists "base64", "data:image/png;base64,AAAA". split; reflexivity. }
  split; [repeat split; try reflexivity; assumption |].
  exact (jsonJob_malformed_image_aborts examplePlatform env exampleManager
           jsonData "main.tex" [good] bad [good] []
           (fun _ _ => eq_refl) (fun _ _ _ => eq_refl) eq_refl Hgood eq_refl).
Defined.

Lemma jsonJob_inherited_option_runs_inkscape_witness :
  let env := exampleEnv None [] in
  let img := {| name := "a.svg"; imageDataUrl := "data:image/svg+xml;base64,AAAA";
                inkscape := JObj [("toString", JNum 1)] |} in
  let jsonData := {| text := "hello"; images := [img] |} in
  ((forall h p, mkdir_ok env h p = true) /\
   (forall h p d, writeFile_ok env h p d = true) /\
   (forall h f a, executeCommand_ok env h f a = true) /\
   decodable examplePlatform img /\
   inkscape img = JObj [("toString", JNum 1)]) /\
  isOwnOptionName "toString" = false /\
  _downloadJob
    (fst (createJsonDownloader examplePlatform env exampleManager jsonData "main.tex")) []
    = (Normal (Settled (mkDownloadResult (Some "/tmp/dl/tmp_1") None)),
       [utils_mkdir "/tmp/dl/tmp_1";
        utils_writeFile "/tmp/dl/tmp_1/main.tex" (Text "hello");
        utils_writeFile "/tmp/dl/tmp_1/a.svg"
          (Buffer "data:image/svg+xml;base64,AAAA" "base64");
        utils_executeCommand "/usr/bin/inkscape"
          [AVal (JStr "--without-gui"); AVal (JStr "--file=/tmp/dl/tmp_1/a.svg");
           AVal (JStr "[object Object]")]]).
Proof.
  intros env img jsonData.
  assert (Himg : decodable examplePlatform img).
  { exists "base64", "data:image/svg+xml;base64,AAAA". split; reflexivity. }
  split; [repeat split; try reflexivity; assumption |].
  split; [reflexivity |].
  exact (jsonJob_inherited_option_runs_inkscape examplePlatform env exampleManager
           "hello" "main.tex" img (JNum 1) []
           (fun _ _ => eq_refl) (fun _ _ _ => eq_refl) (fun _ _ _ => eq_refl)
           Himg eq_refl).
Defined.

(** ** Further properties of [Downloader] *)

Lemma run_app (ops1 ops2 : list op) :
  forall s,
    run s (ops1 ++ ops2) =
    (fst (run (fst (run s ops1)) ops2),
     (snd (run s ops1) ++ snd (run (fst (run s ops1)) ops2))%list).
Proof.
  induction ops1 as [|o rest IH]; intros s; simpl.
  - destruct (run s ops2); reflexivity.
  - destruct (step s o) as [s' returned].
    rewrite IH.
    destruct (run s' rest) as [s1 r1]. simpl.
    destruct (run s1 ops2) as [s2 r2]. simpl.
    destruct returned; reflexivity.
Qed.

Lemma removalLogged_step (job : Job) (w0 : World) (s : System) (o : op) :
  memoized job w0 s ->
  removalLogged job w0 s ->
  removalLogged job w0 (fst (step s o)).
Proof.
  destruct s as [[fp ue dsp flag j prom] w]. unfold memoized, removalLogged. simpl.
  intros (-> & -> & Hp) Hlog.
  destruct o; simpl.
  - unfold downloadIfNeeded; simpl.
    destruct prom as [p|]; simpl; auto.
    destruct Hp as (_ & _ & ->).
    destruct (job (log w0)) as [outcome l']. simpl. auto.
  - unfold runCallback; simpl.
    destruct prom as [[id st]|]; simpl; auto.
    destruct st; simpl; auto.
    destruct Hlog as [Hlog | (_ & path & Hfp & _)]; auto.
    destruct Hp as (_ & _ & _ & _ & Hnone & _). congruence.
  - unfold dispose; simpl.
    destruct dsp; simpl; auto.
    destruct fp as [path|]; simpl.
    + destruct (String.eqb_spec path EmptyString) as [->|Hne]; simpl.
      * destruct prom; auto.
        destruct Hlog as [Hlog | (Hd & _)]; [auto | discriminate].
      * destruct prom; auto.
        destruct Hlog as [Hlog | (Hd & _)]; [| discriminate].
        right. split; auto. exists path. rewrite Hlog. auto.
    + destruct prom; auto.
      destruct Hlog as [Hlog | (Hd & _)]; [auto | discriminate].
Qed.

Lemma removalLogged_run (job : Job) (w0 : World) (ops : list op) :
  forall s,
    memoized job w0 s ->
    removalLogged job w0 s ->
    removalLogged job w0 (fst (run s ops)).
Proof.
  induction ops as [|o rest IH]; intros s Hm Hs; simpl; auto.
  pose proof (memoized_step job w0 s o Hm) as Hm'.
  pose proof (removalLogged_step job w0 s o Hm Hs) as Hs'.
  destruct (step s o) as [s' returned]. simpl in Hm', Hs'.
  specialize (IH s' Hm' Hs').
  destruct (run s' rest) as [s'' more]. exact IH.
Qed.

(** X1.  Whatever is done with a downloader, the calls made are those of
    its job, made once, followed at most by one removal: the log is the
    one the downloader started from, or that log extended by the calls of
    the job, or the latter followed by a single
    [utils.rmdirRecursive(path)], and then [path] is the folder path of
    the result the job was fulfilled with. *)
Theorem downloader_log_is_job_then_one_removal :
  forall (job : Job) (w0 : World) (ops : list op),
    let s := fst (history job w0 ops) in
    (world s = w0 /\ _downloadPromise (downloader s) = None) \/
    log (world s) = snd (job (log w0)) \/
    (exists result path,
        fst (job (log w0)) = Normal (Settled result) /\
        result_folderPath result = Some path /\
        path <> EmptyString /\
        log (world s) = (snd (job (log w0)) ++ [utils_rmdirRecursive path])%list).
Proof.
  intros job w0 ops s. unfold s, history.
  pose proof (memoized_run job w0 ops _ (memoized_new job w0)) as Hm.
  pose proof (removalLogged_run job w0 ops _ (memoized_new job w0) I) as Hl.
  destruct (fst (run {| downloader := newDownloader job; world := w0 |} ops))
    as [this w] eqn:E.
  unfold memoized, removalLogged in *. simpl in *.
  destruct Hm as (_ & _ & Hp).
  destruct (_downloadPromise this) as [p|].
  - right. destruct Hl as [Hl | (_ & path & Hfp & Hne & Hl)]; [left; exact Hl |].
    right. destruct Hp as (_ & _ & _ & Hst).
    destruct (promiseState_ p);
      try (destruct Hst as (_ & Hnone & _); congruence).
    destruct Hst as (result & Hjob & Hf & _).
    exists result, path. repeat split; auto. congruence.
  - left. destruct Hp as (_ & _ & ->). auto.
Qed.

Lemma run_cons_fst (s : System) (o : op) (rest : list op) :
  fst (run s (o :: rest)) = fst (run (fst (step s o)) rest).
Proof.
  simpl. destruct (step s o) as [s' returned]. simpl.
  destruct (run s' rest); reflexivity.
Qed.

Lemma no_callback_step (s : System) (o : op) :
  isCallback o = false ->
  folderPath (downloader (fst (step s o))) = folderPath (downloader s).
Proof.
  destruct s as [[fp ue dsp flag j prom] w].
  destruct o; simpl; intros Ho; try discriminate.
  - unfold downloadIfNeeded; simpl. destruct prom; simpl; auto.
    destruct (j (log w)); reflexivity.
  - unfold dispose; simpl.
    destruct dsp; simpl; auto.
    destruct flag; simpl; auto.
    destruct fp as [path|]; simpl; auto.
    destruct (String.eqb path EmptyString); reflexivity.
Qed.

Lemma no_callback_run (ops : list op) :
  forall s,
    forallb (fun o => negb (isCallback o)) ops = true ->
    folderPath (downloader (fst (run s ops))) = folderPath (downloader s).
Proof.
  induction ops as [|o rest IH]; intros s H; simpl; auto.
  simpl in H. apply andb_true_iff in H. destruct H as [Ho Hrest].
  apply negb_true_iff in Ho.
  pose proof (no_callback_step s o Ho) as Hstep.
  destruct (step s o) as [s' returned]. simpl in Hstep.
  specialize (IH s' Hrest).
  destruct (run s' rest) as [s'' more]. simpl in *. congruence.
Qed.

(** X2.  A [dispose] that comes before the callback has run, be it
    before the trigger or while the download is in flight, finds no
    folder path on the downloader: it marks the downloader disposed and
    removes nothing, and nothing that follows removes anything either.
    In the end the log holds the calls of the job (if there was a
    trigger) and no removal by the downloader. *)
Theorem dispose_before_callback_never_removes :
  forall (job : Job) (w0 : World) (before after : list op),
    forallb (fun o => negb (isCallback o)) before = true ->
    let s := fst (history job w0 (before ++ Dispose :: after)) in
    _disposed (downloader s) = true /\
    log (world s) =
      (if existsb isTrigger (before ++ after) then snd (job (log w0))
       else log w0).
Proof.
  intros job w0 before after Hbefore s. unfold s, history.
  rewrite run_app. cbn [fst]. rewrite run_cons_fst.
  set (s0 := {| downloader := newDownloader job; world := w0 |}).
  pose proof (memoized_run job w0 before s0 (memoized_new job w0)) as Hm.
  pose proof (removalLogged_run job w0 before s0 (memoized_new job w0) I) as Hl.
  pose proof (no_callback_run before s0 Hbefore) as Hfp.
  pose proof (triggered_run before s0) as Htrig.
  pose proof (untriggered_run before s0) as Huntrig.
  destruct (fst (run s0 before)) as [[fp ue dsp flag j prom] w] eqn:E1.
  simpl in Hfp. subst fp.
  unfold memoized, removalLogged in Hm, Hl. simpl in Hm, Hl, Htrig, Huntrig.
  destruct Hm as (-> & -> & Hp).
  set (s2 := fst (step {| downloader :=
                            {| folderPath := None; userError := ue;
                               _disposed := dsp; _dislabedCleanup := false;
                               _downloadJob := job; _downloadPromise := prom |};
                          world := w |} Dispose)).
  assert (Hearly : disposedEarly job w0 s2 /\
                   _downloadPromise (downloader s2) = prom).
  { unfold s2, disposedEarly. simpl. unfold dispose. simpl.
    destruct dsp; simpl.
    - repeat split. destruct prom as [p|].
      + destruct Hl as [Hl | (_ & path & Hf & _)]; [| discriminate].
        destruct Hp as (_ & _ & Hc & _). auto.
      + destruct Hp as (_ & _ & ->). destruct w0; reflexivity.
    - repeat split. destruct prom as [p|].
      + destruct Hl as [Hl | (Hd & _)]; [| discriminate].
        destruct Hp as (_ & _ & Hc & _). auto.
      + destruct Hp as (_ & _ & ->). destruct w0; reflexivity. }
  destruct Hearly as [Hearly Hprom].
  pose proof (disposedEarly_run job w0 after s2 Hearly) as Hinv.
  pose proof (triggered_run after s2) as Htrig2.
  pose proof (untriggered_run after s2) as Huntrig2.
  fold s2.
  destruct (fst (run s2 after)) as [this3 w3].
  unfold disposedEarly in Hinv. simpl in Hinv, Htrig2, Huntrig2 |- *.
  destruct Hinv as (_ & Hd & Hlog). split; [exact Hd |].
  rewrite existsb_app.
  destruct (existsb isTrigger before) eqn:Eb; simpl.
  - assert (Hsome : prom <> None) by (apply Htrig; auto).
    rewrite Hprom in Htrig2.
    specialize (Htrig2 (or_intror Hsome)).
    destruct (_downloadPromise this3); [|contradiction].
    apply Hlog.
  - assert (Hnone : prom = None) by (apply Huntrig; auto).
    rewrite Hprom, Hnone in Htrig2, Huntrig2.
    destruct (existsb isTrigger after) eqn:Ea.
    + specialize (Htrig2 (or_introl eq_refl)).
      destruct (_downloadPromise this3); [|contradiction].
      apply Hlog.
    + specialize (Huntrig2 eq_refl eq_refl).
      rewrite Huntrig2 in Hlog. rewrite Hlog. reflexivity.
Qed.

Lemma undisposed_step (s : System) (o : op) :
  isDispose o = false ->
  _disposed (downloader (fst (step s o))) = _disposed (downloader s).
Proof.
  destruct s as [[fp ue dsp flag j prom] w].
  destruct o; simpl; intros Ho; try discriminate.
  - unfold downloadIfNeeded; simpl. destruct prom; simpl; auto.
    destruct (j (log w)); reflexivity.
  - unfold runCallback; simpl.
    destruct prom as [[id st]|]; simpl; auto. destruct st; reflexivity.
Qed.

Lemma undisposed_run (ops : list op) :
  forall s,
    forallb (fun o => negb (isDispose o)) ops = true ->
    _disposed (downloader (fst (run s ops))) = _disposed (downloader s).
Proof.
  induction ops as [|o rest IH]; intros s H; simpl; auto.
  simpl in H. apply andb_true_iff in H. destruct H as [Ho Hrest].
  apply negb_true_iff in Ho.
  pose proof (undisposed_step s o Ho) as Hstep.
  destruct (step s o) as [s' returned]. simpl in Hstep.
  specialize (IH s' Hrest).
  destruct (run s' rest) as [s'' more]. simpl in *. congruence.
Qed.

(** Once the download is over and the downloader disposed, nothing
    changes any more. *)
Lemma finished_step (s : System) (o : op) :
  resolved s ->
  _disposed (downloader s) = true ->
  downloader (fst (step s o)) = downloader s /\
  log (world (fst (step s o))) = log (world s).
Proof.
  destruct s as [[fp ue dsp flag j prom] w]. unfold resolved. simpl.
  intros [id ->] ->.
  destruct o; simpl; auto.
Qed.

Lemma finished_run (ops : list op) :
  forall s,
    resolved s ->
    _disposed (downloader s) = true ->
    downloader (fst (run s ops)) = downloader s /\
    log (world (fst (run s ops))) = log (world s).
Proof.
  induction ops as [|o rest IH]; intros s Hr Hd; [simpl; auto |].
  rewrite run_cons_fst.
  destruct (finished_step s o Hr Hd) as [Hsame Hlog].
  assert (Hr' : resolved (fst (step s o))) by (unfold resolved; rewrite Hsame; exact Hr).
  assert (Hd' : _disposed (downloader (fst (step s o))) = true) by (rewrite Hsame; exact Hd).
  destruct (IH _ Hr' Hd') as [H1 H2].
  split; congruence.
Qed.

(** Once the cached promise is resolved it stays resolved. *)
Lemma resolved_step (s : System) (o : op) :
  resolved s -> resolved (fst (step s o)).
Proof.
  destruct s as [[fp ue dsp flag j prom] w]. unfold resolved. simpl.
  intros [id ->].
  destruct o; simpl; eauto.
  unfold dispose; simpl.
  destruct dsp; simpl; eauto.
  destruct flag; simpl; eauto.
  destruct fp as [path|]; simpl; eauto.
  destruct (String.eqb path EmptyString); simpl; eauto.
Qed.

Lemma resolved_run (ops : list op) :
  forall s, resolved s -> resolved (fst (run s ops)).
Proof.
  induction ops as [|o rest IH]; intros s Hs; [exact Hs |].
  rewrite run_cons_fst. apply IH, resolved_step, Hs.
Qed.

(** The callback of a triggered downloader whose job was fulfilled
    resolves the cached promise. *)
Lemma callback_resolves (job : Job) (w0 : World) (s : System)
    (result : DownloadResult) :
  memoized job w0 s ->
  _downloadPromise (downloader s) <> None ->
  fst (job (log w0)) = Normal (Settled result) ->
  resolved (fst (step s Callback)).
Proof.
  destruct s as [[fp ue dsp flag j prom] w]. unfold memoized, resolved. simpl.
  intros (_ & _ & Hp) Hsome Hjob.
  destruct prom as [[id st]|]; [| contradiction].
  unfold runCallback. simpl in *.
  destruct Hp as (_ & _ & _ & Hst).
  destruct st; simpl; eauto.
  - destruct Hst as (Hst & _). congruence.
  - destruct Hst as (Hst & _). congruence.
Qed.

(** C1.  Take any history of a new downloader with at least one
    trigger.  The job is run exactly once, on the log the downloader
    started from: the log holds the calls of that one run and nothing
    else, but for the single removal a later [dispose] may add.  Every
    call of [downloadIfNeeded] returns the same cached promise, the one
    allocated by the first call, and its state is the outcome of that
    one run: rejected when the job threw, never settled when the job's
    promise never is, and otherwise waiting for the callback or resolved
    with the downloader, which then carries the folder path and user
    error of the job's result.  Whenever the callback has run after a
    trigger and the job was fulfilled, the promise is resolved and the
    downloader carries that result, whatever else the history holds. *)
Theorem downloadIfNeeded_runs_job_once :
  forall (job : Job) (w0 : World) (ops : list op) (s : System)
         (returned : list nat),
    history job w0 ops = (s, returned) ->
    existsb isTrigger ops = true ->
    jobCalls (world s) = S (jobCalls w0) /\
    (log (world s) = snd (job (log w0)) \/
     exists result path,
       fst (job (log w0)) = Normal (Settled result) /\
       result_folderPath result = Some path /\
       log (world s) = (snd (job (log w0)) ++ [utils_rmdirRecursive path])%list) /\
    length returned = length (filter isTrigger ops) /\
    Forall (eq (promises w0)) returned /\
    (exists p,
        _downloadPromise (downloader s) = Some p /\
        promiseId p = promises w0 /\
        match fst (job (log w0)) with
        | Normal (Settled result) =>
            (promiseState_ p = CallbackPending result /\
             folderPath (downloader s) = None /\
             userError (downloader s) = None) \/
            (promiseState_ p = ResolvedWithThis /\
             folderPath (downloader s) = result_folderPath result /\
             userError (downloader s) = result_userError result)
        | Normal Unsettled =>
            promiseState_ p = NeverSettled /\
            folderPath (downloader s) = None /\
            userError (downloader s) = None
        | Throw e =>
            promiseState_ p = Rejected e /\
            folderPath (downloader s) = None /\
            userError (downloader s) = None
        end) /\
    (forall (result : DownloadResult) (before between after : list op),
        ops = (before ++ Trigger :: between ++ Callback :: after)%list ->
        fst (job (log w0)) = Normal (Settled result) ->
        resolved s /\
        folderPath (downloader s) = result_folderPath result /\
        userError (downloader s) = result_userError result).
Proof.
  intros job w0 ops s returned Hrun Htrig. unfold history in Hrun.
  set (s0 := {| downloader := newDownloader job; world := w0 |}) in *.
  pose proof (memoized_run job w0 ops s0 (memoized_new job w0)) as Hinv.
  pose proof (removalLogged_run job w0 ops s0 (memoized_new job w0) I) as Hlog.
  pose proof (memoized_returned job w0 ops s0 (memoized_new job w0)) as [Hall Hlen].
  pose proof (triggered_run ops s0 (or_introl Htrig)) as Hsome.
  assert (Hres : forall (result : DownloadResult) (before between after : list op),
             ops = (before ++ Trigger :: between ++ Callback :: after)%list ->
             fst (job (log w0)) = Normal (Settled result) ->
             resolved s).
  { intros result before between after Hops Hjob.
    replace s with (fst (run s0 ops)) by (rewrite Hrun; reflexivity).
    rewrite Hops.
    rewrite run_app. cbn [fst]. rewrite run_cons_fst.
    rewrite run_app. cbn [fst]. rewrite run_cons_fst.
    apply resolved_run.
    set (s1 := fst (run s0 before)).
    set (s2 := fst (step s1 Trigger)).
    set (s3 := fst (run s2 between)).
    assert (Hm1 : memoized job w0 s1) by (apply memoized_run, memoized_new).
    assert (Hm2 : memoized job w0 s2) by (apply memoized_step, Hm1).
    assert (Hm3 : memoized job w0 s3) by (apply memoized_run, Hm2).
    assert (Hs2 : _downloadPromise (downloader s2) <> None)
      by (apply triggered_step; left; reflexivity).
    assert (Hs3 : _downloadPromise (downloader s3) <> None)
      by (apply triggered_run; right; exact Hs2).
    exact (callback_resolves job w0 s3 result Hm3 Hs3 Hjob). }
  rewrite Hrun in *. simpl in Hinv, Hlog, Hall, Hlen, Hsome.
  unfold memoized in Hinv. unfold removalLogged in Hlog.
  destruct Hinv as (_ & _ & Hp).
  destruct (_downloadPromise (downloader s)) as [p|] eqn:Eprom; [| contradiction].
  destruct Hp as (Hid & _ & Hcalls & Hst).
  split; [exact Hcalls |].
  split.
  { destruct Hlog as [Hl | (_ & path & Hfp & _ & Hl)]; [left; exact Hl |].
    right.
    destruct (promiseState_ p);
      try (destruct Hst as (_ & Hnone & _); congruence).
    destruct Hst as (result & Hjob & Hf & _).
    exists result, path. repeat split; auto. congruence. }
  split; [exact Hlen |].
  split; [exact Hall |].
  split.
  { exists p. split; [reflexivity |]. split; [exact Hid |].
    destruct (promiseState_ p) as [result| |e|] eqn:Est.
    - destruct Hst as (-> & Hf & Hu). left. auto.
    - destruct Hst as (-> & Hf & Hu). auto.
    - destruct Hst as (-> & Hf & Hu). auto.
    - destruct Hst as (result & -> & Hf & Hu). right. auto. }
  intros result before between after Hops Hjob.
  pose proof (Hres result before between after Hops Hjob) as Hr.
  split; [exact Hr |].
  destruct Hr as [id Hr]. rewrite Hr in Eprom. injection Eprom as <-.
  simpl in Hst. destruct Hst as (result' & Hjob' & Hf & Hu).
  assert (result' = result) by congruence. subst result'. auto.
Qed.

Lemma downloadIfNeeded_runs_job_once_witness :
  let job := textJob examplePlatform (exampleEnv None []) "hello" "a.tex"
               "/tmp/dl/tmp_1" in
  let ops := [Trigger; Trigger; Callback; Trigger] in
  let s := fst (history job emptyWorld ops) in
  let returned := snd (history job emptyWorld ops) in
  (history job emptyWorld ops = (s, returned) /\
   existsb isTrigger ops = true) /\
  jobCalls (world s) = 1%nat /\
  log (world s) =
    [utils_mkdir "/tmp/dl/tmp_1"; utils_writeFile "/tmp/dl/tmp_1/a.tex" (Text "hello")] /\
  length returned = 3%nat /\
  Forall (eq 0%nat) returned /\
  resolved s /\
  folderPath (downloader s) = Some "/tmp/dl/tmp_1" /\
  userError (downloader s) = None.
Proof.
  intros job ops s returned.
  assert (Hrun : history job emptyWorld ops = (s, returned)) by reflexivity.
  assert (Htrig : existsb isTrigger ops = true) by reflexivity.
  split; [split; assumption |].
  destruct (downloadIfNeeded_runs_job_once job emptyWorld ops s returned Hrun Htrig)
    as (H1 & _ & H2 & H3 & _ & Hres).
  split; [exact H1 |].
  split; [reflexivity |].
  split; [exact H2 |].
  split; [exact H3 |].
  exact (Hres (mkDownloadResult (Some "/tmp/dl/tmp_1") None)
              [] [Trigger] [Trigger] eq_refl eq_refl).
Defined.

(** X3.  When the job was fulfilled with a folder and the callback has
    run, the first [dispose] asks for that folder to be removed, once,
    and whatever follows (more disposes, more triggers) adds nothing: the
    log ends with the calls of the job and the one removal. *)
Theorem dispose_after_download_removes_folder_once :
  forall (job : Job) (w0 : World) (result : DownloadResult) (path : string)
         (before after : list op),
    fst (job (log w0)) = Normal (Settled result) ->
    result_folderPath result = Some path ->
    path <> EmptyString ->
    forallb (fun o => negb (isDispose o)) before = true ->
    resolved (fst (history job w0 before)) ->
    let s := fst (history job w0 (before ++ Dispose :: after)) in
    log (world s) = (snd (job (log w0)) ++ [utils_rmdirRecursive path])%list /\
    folderPath (downloader s) = Some path /\
    _disposed (downloader s) = true.
Proof.
  intros job w0 result path before after Hjob Hpath Hne Hbefore Hres s.
  unfold s, history in *.
  rewrite run_app. cbn [fst]. rewrite run_cons_fst.
  set (s0 := {| downloader := newDownloader job; world := w0 |}) in *.
  pose proof (memoized_run job w0 before s0 (memoized_new job w0)) as Hm.
  pose proof (removalLogged_run job w0 before s0 (memoized_new job w0) I) as Hl.
  pose proof (undisposed_run before s0 Hbefore) as Hd.
  destruct (fst (run s0 before)) as [[fp ue dsp flag j prom] w].
  destruct Hres as [id Hprom]. simpl in Hprom, Hd. subst prom dsp.
  unfold memoized, removalLogged in Hm, Hl. simpl in Hm, Hl.
  destruct Hm as (-> & -> & _ & _ & _ & result' & Hjob' & -> & ->).
  assert (result' = result) by congruence. subst result'.
  destruct Hl as [Hl | (Hd & _)]; [| discriminate].
  set (s2 := fst (step _ Dispose)).
  assert (Hs2 : resolved s2 /\ _disposed (downloader s2) = true /\
                folderPath (downloader s2) = Some path /\
                log (world s2)
                  = (snd (job (log w0)) ++ [utils_rmdirRecursive path])%list).
  { unfold s2, resolved. simpl. unfold dispose. simpl. rewrite Hpath. simpl.
    destruct (String.eqb_spec path EmptyString) as [E|_]; [contradiction |].
    simpl. rewrite Hl. repeat split; eauto. }
  destruct Hs2 as (Hr2 & Hd2 & Hf2 & Hl2).
  destruct (finished_run after s2 Hr2 Hd2) as [Hsame Hlog].
  rewrite Hsame, Hlog. auto.
Qed.

(** X4.  When the job is not fulfilled (it rejects, or its promise is
    never resolved), the downloader never shows a folder path or a user
    error, and no [dispose] ever removes anything: the log holds at most
    the calls of the job. *)
Theorem unfulfilled_job_leaves_downloader_empty :
  forall (job : Job) (w0 : World) (ops : list op),
    (forall result, fst (job (log w0)) <> Normal (Settled result)) ->
    let s := fst (history job w0 ops) in
    folderPath (downloader s) = None /\
    userError (downloader s) = None /\
    ~ resolved s /\
    (log (world s) = log w0 \/ log (world s) = snd (job (log w0))).
Proof.
  intros job w0 ops Hjob s. unfold s, history.
  pose proof (memoized_run job w0 ops _ (memoized_new job w0)) as Hm.
  pose proof (removalLogged_run job w0 ops _ (memoized_new job w0) I) as Hl.
  destruct (fst (run {| downloader := newDownloader job; world := w0 |} ops))
    as [[fp ue dsp flag j prom] w].
  unfold memoized, removalLogged, resolved in *. simpl in *.
  destruct Hm as (-> & -> & Hp).
  destruct prom as [[id st]|].
  - destruct Hp as (_ & _ & _ & Hst). simpl in Hst.
    destruct st.
    + destruct Hst as (H & _). elim (Hjob _ H).
    + destruct Hst as (_ & -> & ->).
      repeat split; auto.
      * intros [id' H]. discriminate.
      * destruct Hl as [Hl | (_ & path & Hf & _)]; [auto | discriminate].
    + destruct Hst as (_ & -> & ->).
      repeat split; auto.
      * intros [id' H]. discriminate.
      * destruct Hl as [Hl | (_ & path & Hf & _)]; [auto | discriminate].
    + destruct Hst as (result & H & _). elim (Hjob _ H).
  - destruct Hp as (-> & -> & ->).
    repeat split; auto. intros [id' H]. discriminate.
Qed.

(** ** Further properties of [DownloadManager] *)

Lemma decimal_injective (a b : Z) : decimal a = decimal b -> a = b.
Proof.
  intros H.
  assert (Hab : Int a = Int b)
    by (rewrite <- (parseIntString_decimal a), <- (parseIntString_decimal b), H;
        reflexivity).
  injection Hab as ->. reflexivity.
Qed.

Lemma nextNames_numbered (pf : Platform) (n : nat) :
  forall this : DownloadManager,
    fst (nextNames pf this n) =
      map (fun i => path_join pf (_folderPath this)
                      ("tmp_" ++ decimal (_id this + Z.of_nat i)))
          (seq 1 n) /\
    _folderPath (snd (nextNames pf this n)) = _folderPath this /\
    _id (snd (nextNames pf this n)) = _id this + Z.of_nat n.
Proof.
  induction n as [|n IH]; intros this.
  - simpl. repeat split. lia.
  - cbn -[Z.of_nat Z.add decimal seq String.append].
    specialize (IH {| _folderPath := _folderPath this; _id := _id this + 1 |}).
    destruct (nextNames pf _ n) as [more this'].
    cbn [fst snd _folderPath _id] in IH |- *.
    destruct IH as (Hnames & Hroot & Hid).
    split; [| split; [exact Hroot | lia]].
    cbn [seq map]. f_equal.
    rewrite Hnames, <- (seq_shift n 1), map_map.
    apply map_ext. intros i.
    replace (_id this + 1 + Z.of_nat i) with (_id this + Z.of_nat (S i)) by lia.
    reflexivity.
Qed.

Lemma NoDup_map_injective {A B : Type} (f : A -> B) (l : list A) :
  (forall x y, In x l -> In y l -> f x = f y -> x = y) ->
  NoDup l -> NoDup (map f l).
Proof.
  intros Hinj Hl. induction Hl as [|x l Hx Hl IH]; simpl; constructor.
  - intros Hin. apply in_map_iff in Hin. destruct Hin as (y & Hy & Hin).
    apply Hinj in Hy; [subst y; contradiction | right; exact Hin | left; reflexivity].
  - apply IH. intros a b Ha Hb. apply Hinj; right; assumption.
Qed.

(** X5.  [DownloadManager.create] gives no manager when the root folder
    could not be prepared; otherwise the manager it gives hands out
    [tmp_1], [tmp_2], ... under the root, in this order, and its counter
    stands at the number of names handed out. *)
Theorem created_manager_numbers_folders :
  forall (pf : Platform) (folderPath : string) (n : nat),
    create false folderPath = None /\
    exists this,
      create true folderPath = Some this /\
      fst (nextNames pf this n) =
        map (fun i => path_join pf folderPath ("tmp_" ++ decimal (Z.of_nat i)))
            (seq 1 n) /\
      _folderPath (snd (nextNames pf this n)) = folderPath /\
      _id (snd (nextNames pf this n)) = Z.of_nat n.
Proof.
  intros pf folderPath n. split; [reflexivity |].
  exists (newDownloadManager folderPath). split; [reflexivity |].
  destruct (nextNames_numbered pf n (newDownloadManager folderPath))
    as (Hnames & Hroot & Hid).
  repeat split; assumption.
Qed.

(** X6.  A manager never hands out the same folder name twice, as long
    as its counter stays among the safe integers (where [++] is exact)
    and [path.join] keeps apart, under the manager's root, the names
    [tmp_<i>] of different numbers [i]. *)
Theorem manager_never_reuses_a_name :
  forall (pf : Platform) (this : DownloadManager) (n : nat),
    0 <= _id this ->
    _id this + Z.of_nat n <= maxSafeInteger ->
    (forall i j,
        0 < i <= maxSafeInteger ->
        0 < j <= maxSafeInteger ->
        path_join pf (_folderPath this) ("tmp_" ++ decimal i)
          = path_join pf (_folderPath this) ("tmp_" ++ decimal j) ->
        i = j) ->
    NoDup (fst (nextNames pf this n)).
Proof.
  intros pf this n Hlow Hhigh Hinj.
  destruct (nextNames_numbered pf n this) as (-> & _ & _).
  apply NoDup_map_injective; [| apply seq_NoDup].
  intros i j Hi Hj Hij.
  apply in_seq in Hi. apply in_seq in Hj.
  apply Hinj in Hij; lia.
Qed.

(** ** Further properties of the jobs *)

Section MoreJobProperties.

Variable pf : Platform.
Variable env : Env.

(** X7.  A text downloader of a manager, triggered in an environment
    where the folder can be made and the file written: the calls are the
    creation of the allocated folder and the writing of the text, as it
    is, to the file of the given name in it; once the callback has run
    the downloader shows the folder and no user error. *)
Theorem text_downloader_writes_the_text :
  forall (this : DownloadManager) (text fileName : string) (w0 : World),
    let folder := fst (_nextName pf this) in
    let job := _downloadJob (fst (createTextDownloader pf env this text fileName)) in
    (forall h p, mkdir_ok env h p = true) ->
    (forall h p d, writeFile_ok env h p d = true) ->
    let s := fst (history job w0 [Trigger; Callback]) in
    log (world s) =
      (log w0 ++ [utils_mkdir folder;
                  utils_writeFile (path_join pf folder fileName) (Text text)])%list /\
    folderPath (downloader s) = Some folder /\
    userError (downloader s) = None /\
    resolved s.
Proof.
  intros this text fileName w0 folder job Hmk Hw s.
  assert (Hjob : job (log w0) =
            (Normal (Settled (mkDownloadResult (Some folder) None)),
             (log w0 ++ [utils_mkdir folder;
                         utils_writeFile (path_join pf folder fileName)
                           (Text text)])%list)).
  { change job with (textJob pf env text fileName folder). clearbody folder.
    unfold textJob. run_job. rewrite Hmk. simpl. rewrite Hw. simpl.
    rewrite <- app_assoc. reflexivity. }
  unfold s, history, resolved. simpl. unfold downloadIfNeeded. simpl.
  fold job. rewrite Hjob. simpl. eauto.
Qed.

(** X8.  The text job always settles and never reports a user error.
    When the folder cannot be made nothing else is attempted; when the
    file cannot be written the folder is removed with [utils.rmdir]; in
    both cases the result has no folder.  The job makes a removal call
    exactly when the write failed. *)
Theorem textJob_fails_silently :
  forall (text fileName folder : string) (l : list call),
    let filePath := path_join pf folder fileName in
    exists result calls,
      textJob pf env text fileName folder l
        = (Normal (Settled result), (l ++ calls)%list) /\
      result_userError result = None /\
      (mkdir_ok env l folder = false ->
         result_folderPath result = None /\ calls = [utils_mkdir folder]) /\
      (mkdir_ok env l folder = true ->
       writeFile_ok env (l ++ [utils_mkdir folder])%list filePath (Text text) = false ->
         result_folderPath result = None /\
         calls = [utils_mkdir folder; utils_writeFile filePath (Text text);
                  utils_rmdir folder]) /\
      (existsb isRemoval calls = true <->
       mkdir_ok env l folder = true /\
       writeFile_ok env (l ++ [utils_mkdir folder])%list filePath (Text text) = false).
Proof.
  intros text fileName folder l filePath. unfold textJob. run_job.
  fold filePath.
  destruct (mkdir_ok env l folder); simpl.
  - destruct (writeFile_ok env _ filePath (Text text)); simpl.
    + exists (mkDownloadResult (Some folder) None),
        [utils_mkdir folder; utils_writeFile filePath (Text text)].
      rewrite <- app_assoc. simpl.
      repeat split; try discriminate; intros [_ H]; discriminate.
    + exists (mkDownloadResult None None),
        [utils_mkdir folder; utils_writeFile filePath (Text text);
         utils_rmdir folder].
      rewrite <- !app_assoc. simpl.
      repeat split; try discriminate; auto.
  - exists (mkDownloadResult None None), [utils_mkdir folder].
    repeat split; try discriminate; intros [H _]; discriminate.
Qed.

(** X9.  The git job never makes or removes a folder: its calls are the
    existence check and, unless the folder exists already, the one run
    of git.  When the folder exists the result has neither folder nor
    user error and git is not run; when the clone succeeds the result is
    the folder. *)
Theorem gitJob_conflict_and_success :
  forall (url folder : string) (l : list call),
    let args := ["clone"; "--depth"; "1"; url; folder] in
    (exists_ok env l folder = true ->
       gitJob env url folder l =
         (Normal (Settled (mkDownloadResult None None)),
          (l ++ [utils_exists folder])%list)) /\
    (exists_ok env l folder = false ->
     exec_err env (l ++ [utils_exists folder])%list "git" args = None ->
       gitJob env url folder l =
         (Normal (Settled (mkDownloadResult (Some folder) None)),
          (l ++ [utils_exists folder;
                 exec "git" args (Some (utils_minutes 2))])%list)) /\
    (exists calls,
        snd (gitJob env url folder l) = (l ++ calls)%list /\
        existsb isRemoval calls = false /\
        ~ In (utils_mkdir folder) calls).
Proof.
  intros url folder l args. unfold gitJob. run_job. fold args.
  destruct (exists_ok env l folder); simpl.
  - repeat split; try discriminate.
    exists [utils_exists folder]. repeat split.
    intros [H|[]]; discriminate.
  - split; [intros H; discriminate |].
    split.
    + intros _ ->. rewrite <- app_assoc. reflexivity.
    + exists [utils_exists folder; exec "git" args (Some (utils_minutes 2))].
      split; [| split; [reflexivity |]].
      * destruct (exec_err env _ "git" args); simpl;
          rewrite <- app_assoc; reflexivity.
      * intros [H|[H|[]]]; discriminate.
Qed.

(** X10.  The tarball job: when the folder cannot be made, tar is not
    run and the result has neither folder nor user error; when tar
    fails, the folder is removed recursively and the user error is the
    extraction message; when tar succeeds the result is the folder and
    nothing is removed. *)
Theorem tarballJob_outcomes :
  forall (tarballPath folder : string) (l : list call),
    let args := ["-xf"; tarballPath; "-C"; folder] in
    (mkdir_ok env l folder = false ->
       tarballJob env tarballPath folder l =
         (Normal (Settled (mkDownloadResult None None)),
          (l ++ [utils_mkdir folder])%list)) /\
    (mkdir_ok env l folder = true ->
     forall message,
       exec_err env (l ++ [utils_mkdir folder])%list "tar" args = Some message ->
       tarballJob env tarballPath folder l =
         (Normal (Settled (mkDownloadResult None
                    (Some "failed to extract tarball"))),
          (l ++ [utils_mkdir folder; exec "tar" args None;
                 utils_rmdirRecursive folder])%list)) /\
    (mkdir_ok env l folder = true ->
     exec_err env (l ++ [utils_mkdir folder])%list "tar" args = None ->
       tarballJob env tarballPath folder l =
         (Normal (Settled (mkDownloadResult (Some folder) None)),
          (l ++ [utils_mkdir folder; exec "tar" args None])%list)).
Proof.
  intros tarballPath folder l args. unfold tarballJob. run_job. fold args.
  destruct (mkdir_ok env l folder); simpl.
  - split; [intros H; discriminate |]. split.
    + intros _ message ->. simpl. rewrite <- !app_assoc. reflexivity.
    + intros _ ->. simpl. rewrite <- !app_assoc. reflexivity.
  - split; [reflexivity |]. split; intros H; discriminate.
Qed.

Lemma handleEvents_log (url folder : string) (events : list streamEvent) :
  forall promise l,
    snd (handleEvents url folder events promise l) =
    (l ++ repeat (utils_rmdirRecursive folder)
            (length (filter isError events)))%list.
Proof.
  induction events as [|ev events IH]; intros promise l; simpl.
  - rewrite app_nil_r. reflexivity.
  - destruct ev as [statusCode|err|]; simpl.
    + destruct ((statusCode <? 200) || (statusCode >=? 400)); apply IH.
    + run_job. rewrite IH. rewrite <- app_assoc. reflexivity.
    + apply IH.
Qed.

(** X11.  The url job asks for the folder to be removed once for every
    error event of the stream, whether or not the promise is settled by
    then, and for nothing else: after the creation of the folder, the
    opening of the file and the request, its log holds as many removals
    as there were error events.  When the folder cannot be made, no
    request is sent. *)
Theorem urlJob_removes_once_per_error :
  forall (url fileName folder : string) (l : list call),
    (mkdir_ok env l folder = false ->
       urlJob pf env url fileName folder l =
         (Normal (Settled (mkDownloadResult None None)),
          (l ++ [utils_mkdir folder])%list)) /\
    (mkdir_ok env l folder = true ->
       snd (urlJob pf env url fileName folder l) =
         (l ++ [utils_mkdir folder;
                fs_createWriteStream (path_join pf folder fileName);
                request_get url 5000]
            ++ repeat (utils_rmdirRecursive folder)
                 (length (filter isError
                            (urlEvents pf env url fileName folder l))))%list).
Proof.
  intros url fileName folder l. unfold urlJob. run_job.
  destruct (mkdir_ok env l folder); simpl.
  - split; [intros H; discriminate |]. intros _.
    unfold urlEvents. rewrite <- app_assoc. simpl.
    match goal with
    | |- context [handleEvents ?u ?f ?evs ?p0 ?l0] =>
        pose proof (handleEvents_log u f evs p0 l0) as Hl;
        destruct (handleEvents u f evs p0 l0) as [[promise|e] l']
    end; simpl in Hl |- *.
    + destruct promise; simpl; rewrite Hl, <- !app_assoc; reflexivity.
    + rewrite Hl, <- !app_assoc. reflexivity.
  - split; [reflexivity | intros H; discriminate].
Qed.

(** X12.  A url downloader of a manager whose stream reports an error
    before anything else settles the job: once the callback has run the
    downloader shows the loading error for the url and no folder; the
    job itself has asked for the folder to be removed, and a [dispose]
    adds no call. *)
Theorem url_downloader_reports_stream_error :
  forall (this : DownloadManager) (url fileName : string) (w0 : World)
         (pre rest : list streamEvent) (err : string),
    let folder := fst (_nextName pf this) in
    let job := _downloadJob (fst (createURLDownloader pf env this url fileName)) in
    mkdir_ok env (log w0) folder = true ->
    Forall (fun ev => quiet ev = true) pre ->
    urlEvents pf env url fileName folder (log w0)
      = (pre ++ EvError err :: rest)%list ->
    let s := fst (history job w0 [Trigger; Callback; Dispose]) in
    userError (downloader s) = Some (UserErrors.LoadingError url err) /\
    folderPath (downloader s) = None /\
    log (world s) = snd (job (log w0)) /\
    In (utils_rmdirRecursive folder) (log (world s)).
Proof.
  intros this url fileName w0 pre rest err folder job Hmk Hpre Hev s.
  change job with (urlJob pf env url fileName folder) in *.
  clearbody folder.
  destruct (urlJob_stream_error_removes_folder pf env url fileName folder
              (log w0) pre rest err Hmk Hpre Hev) as [l' Hjob].
  unfold s, history. simpl. unfold downloadIfNeeded. simpl.
  rewrite Hjob. simpl. unfold dispose. simpl.
  repeat split.
  apply in_or_app. right. simpl. auto.
Qed.

(** X13.  When the stream delivers nothing but responses in the band of
    success (no finish, no error), the promise of the url job is never
    resolved: the job does not settle, and the folder it made stays. *)
Theorem urlJob_hangs_without_finish :
  forall (url fileName folder : string) (l : list call),
    mkdir_ok env l folder = true ->
    Forall (fun ev => quiet ev = true) (urlEvents pf env url fileName folder l) ->
    urlJob pf env url fileName folder l =
      (Normal Unsettled,
       (l ++ [utils_mkdir folder;
              fs_createWriteStream (path_join pf folder fileName);
              request_get url 5000])%list).
Proof.
  intros url fileName folder l Hmk Hquiet. unfold urlJob. run_job.
  rewrite Hmk. simpl. unfold urlEvents in Hquiet.
  rewrite <- app_assoc. simpl.
  match goal with
  | |- context [handleEvents ?u ?f ?evs ?p0 ?l0] =>
      pose proof (handleEvents_quiet u f evs [] Hquiet p0 l0) as Hq
  end.
  rewrite app_nil_r in Hq. rewrite Hq. simpl. run_job.
  rewrite <- app_assoc. reflexivity.
Qed.

(** The first pass over decodable images whose files can be written. *)
Lemma saveImages_decodable (folder : string) (imgs : list Image) :
  (forall img h d,
      In img imgs ->
      writeFile_ok env h (path_join pf folder (name img)) d = true) ->
  Forall (decodable pf) imgs ->
  forall l,
    saveImages pf env folder imgs l =
      (Normal None, (l ++ imageWrites pf folder imgs)%list).
Proof.
  intros Hw Himgs.
  induction Himgs as [|img rest Himg Hrest IH]; intros l; simpl.
  - run_job. rewrite app_nil_r. reflexivity.
  - destruct Himg as (encoding & data & -> & Henc).
    unfold newBuffer. rewrite Henc. run_job.
    rewrite (Hw img _ _ (or_introl eq_refl)). simpl.
    rewrite IH by (intros; apply Hw; right; assumption).
    rewrite <- app_assoc. reflexivity.
Qed.

Lemma convoluteImages_nothing_asked (folder : string) (imgs : list Image) :
  Forall (fun img => truthy (inkscape img) = false) imgs ->
  forall l, convoluteImages pf env folder imgs l = (Normal None, l).
Proof.
  induction 1 as [|img rest Himg Hrest IH]; intros l; simpl.
  - reflexivity.
  - rewrite Himg. apply IH.
Qed.

(** X14.  A json job whose images are all decodable and ask for no
    inkscape processing, in an environment where folder and files can be
    written, succeeds with the folder: it makes the folder, writes the
    text file, writes the images in array order, and makes no other
    call (no command is run, nothing is removed). *)
Theorem jsonJob_writes_text_and_images :
  forall (jsonData : JsonData) (fileName folder : string) (l : list call),
    (forall h p, mkdir_ok env h p = true) ->
    (forall h p d, writeFile_ok env h p d = true) ->
    Forall (decodable pf) (images jsonData) ->
    Forall (fun img => truthy (inkscape img) = false) (images jsonData) ->
    jsonJob pf env jsonData fileName folder l =
      (Normal (Settled (mkDownloadResult (Some folder) None)),
       (l ++ [utils_mkdir folder;
              utils_writeFile (path_join pf folder fileName) (Text (text jsonData))]
          ++ imageWrites pf folder (images jsonData))%list).
Proof.
  intros jsonData fileName folder l Hmk Hw Hdec Hink.
  unfold jsonJob. run_job. rewrite Hmk. simpl. rewrite Hw. simpl.
  rewrite (saveImages_decodable folder (images jsonData)
             (fun img h d _ => Hw h _ d) Hdec).
  simpl. rewrite (convoluteImages_nothing_asked folder _ Hink). simpl.
  rewrite <- !app_assoc. reflexivity.
Qed.

Lemma saveImages_app (folder : string) (before after : list Image) :
  (forall img h d,
      In img before ->
      writeFile_ok env h (path_join pf folder (name img)) d = true) ->
  Forall (decodable pf) before ->
  forall l,
    saveImages pf env folder (before ++ after) l =
    saveImages pf env folder after (l ++ imageWrites pf folder before)%list.
Proof.
  intros Hw Hbefore.
  induction Hbefore as [|img rest Himg Hrest IH]; intros l; simpl.
  - rewrite app_nil_r. reflexivity.
  - destruct Himg as (encoding & data & -> & Henc).
    unfold newBuffer. rewrite Henc. run_job.
    rewrite (Hw img _ _ (or_introl eq_refl)). simpl.
    rewrite IH by (intros; apply Hw; right; assumption).
    rewrite <- app_assoc. reflexivity.
Qed.

(** X15.  In the json job, the first image whose file cannot be written
    ends the job: after the writes made so far (the failed one
    included), the folder is removed recursively, no later image is
    touched, and the result has neither folder nor user error. *)
Theorem jsonJob_image_write_failure :
  forall (jsonData : JsonData) (fileName folder : string)
         (before : list Image) (img : Image) (after : list Image)
         (l : list call),
    let bad := path_join pf folder (name img) in
    (forall h p, mkdir_ok env h p = true) ->
    (forall h p d, p <> bad -> writeFile_ok env h p d = true) ->
    (forall h d, writeFile_ok env h bad d = false) ->
    path_join pf folder fileName <> bad ->
    Forall (fun b => path_join pf folder (name b) <> bad) before ->
    images jsonData = (before ++ img :: after)%list ->
    Forall (decodable pf) before ->
    decodable pf img ->
    jsonJob pf env jsonData fileName folder l =
      (Normal (Settled (mkDownloadResult None None)),
       (l ++ [utils_mkdir folder;
              utils_writeFile (path_join pf folder fileName) (Text (text jsonData))]
          ++ imageWrites pf folder (before ++ [img])
          ++ [utils_rmdirRecursive folder])%list).
Proof.
  intros jsonData fileName folder before img after l bad
         Hmk Hok Hbad Htext Hnames Himgs Hbefore (encoding & data & Huri & Henc).
  unfold jsonJob. run_job. rewrite Hmk. simpl.
  rewrite (Hok _ _ _ Htext). simpl. rewrite Himgs.
  rewrite saveImages_app; [| | exact Hbefore].
  2:{ intros b h d Hin. apply Hok.
      rewrite Forall_forall in Hnames. apply Hnames. exact Hin. }
  simpl. rewrite Huri. unfold newBuffer. rewrite Henc. run_job.
  fold bad. rewrite Hbad. simpl.
  unfold imageWrites. rewrite flat_map_app. simpl. rewrite Huri.
  rewrite <- !app_assoc. reflexivity.
Qed.

(** X16.  In the json job, an image whose data URI matches but names an
    encoding [Buffer] does not know makes the job reject with a
    [TypeError]: no result is produced, the image is not written, and
    the folder, with the text file and the earlier images, is left in
    place. *)
Theorem jsonJob_unknown_encoding_rejects :
  forall (jsonData : JsonData) (fileName folder : string)
         (before : list Image) (img : Image) (after : list Image)
         (encoding data : string) (l : list call),
    (forall h p, mkdir_ok env h p = true) ->
    (forall h p d, writeFile_ok env h p d = true) ->
    images jsonData = (before ++ img :: after)%list ->
    Forall (decodable pf) before ->
    dataUriRE_exec pf (imageDataUrl img) = Some (encoding, data) ->
    Buffer_isEncoding pf encoding = false ->
    jsonJob pf env jsonData fileName folder l =
      (Throw TypeError,
       (l ++ [utils_mkdir folder;
              utils_writeFile (path_join pf folder fileName) (Text (text jsonData))]
          ++ imageWrites pf folder before)%list).
Proof.
  intros jsonData fileName folder before img after encoding data l
         Hmk Hw Himgs Hbefore Huri Henc.
  unfold jsonJob. run_job. rewrite Hmk. simpl. rewrite Hw. simpl. rewrite Himgs.
  rewrite saveImages_app; [| intros; apply Hw | exact Hbefore].
  simpl. rewrite Huri. unfold newBuffer. rewrite Henc. run_job.
  rewrite <- !app_assoc. reflexivity.
Qed.

(** C7, as the code has it.  A malformed data URI does not always end
    the job the way the claim says.  When an image before the first
    malformed one has a data URI that matches but names an encoding
    [Buffer] does not know, [new Buffer] throws and nothing catches it:
    the job rejects with a [TypeError] at that image, produces no result
    (so no user error naming the malformed image), never gets to the
    malformed image, and makes no removal: the folder stays, with the
    text file and the images written so far. *)
Theorem jsonJob_undecodable_image_preempts_malformed :
  forall (this : DownloadManager) (jsonData : JsonData) (fileName : string)
         (before : list Image) (und : Image) (between : list Image)
         (bad : Image) (after : list Image) (encoding data : string)
         (l : list call),
    let folderPath := fst (_nextName pf this) in
    let job := _downloadJob (fst (createJsonDownloader pf env this jsonData fileName)) in
    (forall h p, mkdir_ok env h p = true) ->
    (forall h p d, writeFile_ok env h p d = true) ->
    images jsonData = (before ++ und :: between ++ bad :: after)%list ->
    Forall (decodable pf) before ->
    dataUriRE_exec pf (imageDataUrl und) = Some (encoding, data) ->
    Buffer_isEncoding pf encoding = false ->
    Forall (fun img => dataUriRE_exec pf (imageDataUrl img) <> None) between ->
    dataUriRE_exec pf (imageDataUrl bad) = None ->
    job l =
      (Throw TypeError,
       (l ++ [utils_mkdir folderPath;
              utils_writeFile (path_join pf folderPath fileName) (Text (text jsonData))]
          ++ imageWrites pf folderPath before)%list) /\
    (forall result, fst (job l) <> Normal (Settled result)).
Proof.
  intros this jsonData fileName before und between bad after encoding data l
         folderPath job Hmk Hw Himgs Hbefore Huri Henc _ _.
  change job with (jsonJob pf env jsonData fileName folderPath).
  clearbody folderPath. clear job.
  assert (Hjob : jsonJob pf env jsonData fileName folderPath l =
            (Throw TypeError,
             (l ++ [utils_mkdir folderPath;
                    utils_writeFile (path_join pf folderPath fileName)
                      (Text (text jsonData))]
                ++ imageWrites pf folderPath before)%list)).
  { unfold jsonJob. run_job. rewrite Hmk. simpl. rewrite Hw. simpl. rewrite Himgs.
    rewrite saveImages_app; [| intros; apply Hw | exact Hbefore].
    simpl. rewrite Huri. unfold newBuffer. rewrite Henc. run_job.
    rewrite <- !app_assoc. reflexivity. }
  rewrite Hjob. split; [reflexivity |].
  intros result H. discriminate H.
Qed.

Lemma collectOptions_throwing_key (folder : string) (ink : JsValue)
    (keys : list string) (k : string) (e : exn) :
  In k keys ->
  (arg <- Get ink k ;; callOption folder k arg) = Throw e ->
  collectOptions folder ink keys = None.
Proof.
  intros Hin Hthrow.
  induction keys as [|k' rest IH]; [contradiction |].
  simpl. destruct Hin as [->|Hin].
  - cbn [bind Monad_completion] in Hthrow |- *. rewrite Hthrow. reflexivity.
  - rewrite (IH Hin).
    destruct (Get ink k') as [arg|]; [| reflexivity].
    destruct (callOption folder k' arg); reflexivity.
Qed.

(** X17.  In the json job, when the images are written and one option
    of the first image that asks for inkscape throws (an invalid
    parameter, or a key found neither among the builders nor on
    [Object.prototype]), the job ends with neither folder nor user
    error: after the writes no call is made, so inkscape is not run for
    the image and the folder is kept. *)
Theorem jsonJob_throwing_option_keeps_folder :
  forall (jsonData : JsonData) (fileName folder : string)
         (before : list Image) (img : Image) (after : list Image)
         (keys : list string) (k : string) (e : exn) (l : list call),
    (forall h p, mkdir_ok env h p = true) ->
    (forall h p d, writeFile_ok env h p d = true) ->
    images jsonData = (before ++ img :: after)%list ->
    Forall (decodable pf) (images jsonData) ->
    Forall (fun b => truthy (inkscape b) = false) before ->
    truthy (inkscape img) = true ->
    ObjectKeys (inkscape img) = Normal keys ->
    In k keys ->
    (arg <- Get (inkscape img) k ;; callOption folder k arg) = Throw e ->
    jsonJob pf env jsonData fileName folder l =
      (Normal (Settled (mkDownloadResult None None)),
       (l ++ [utils_mkdir folder;
              utils_writeFile (path_join pf folder fileName) (Text (text jsonData))]
          ++ imageWrites pf folder (images jsonData))%list).
Proof.
  intros jsonData fileName folder before img after keys k e l
         Hmk Hw Himgs Hdec Hbefore Htruthy Hkeys Hin Hthrow.
  unfold jsonJob. run_job. rewrite Hmk. simpl. rewrite Hw. simpl.
  rewrite (saveImages_decodable folder (images jsonData)
             (fun b h d _ => Hw h _ d) Hdec).
  simpl. rewrite Himgs at 1.
  rewrite (convoluteImages_option_failure pf env folder before img after keys
             Hbefore Htruthy Hkeys
             (collectOptions_throwing_key folder _ keys k e Hin Hthrow)).
  simpl. rewrite <- !app_assoc. reflexivity.
Qed.

Lemma convoluteImages_skips (folder : string)
    (before rest : list Image) :
  Forall (fun b => truthy (inkscape b) = false) before ->
  forall l,
    convoluteImages pf env folder (before ++ rest) l =
    convoluteImages pf env folder rest l.
Proof.
  induction 1 as [|b before Hb Hbefore IH]; intros l; simpl; auto.
  rewrite Hb. apply IH.
Qed.

(** X18.  In the json job, when inkscape fails for the first image that
    asks for it, the job ends with neither folder nor user error; the
    one run of inkscape is its last call: the folder is kept and no
    later image is processed. *)
Theorem jsonJob_inkscape_failure_keeps_folder :
  forall (jsonData : JsonData) (fileName folder : string)
         (before : list Image) (img : Image) (after : list Image)
         (keys : list string) (flags : list JsAny) (l : list call),
    (forall h p, mkdir_ok env h p = true) ->
    (forall h p d, writeFile_ok env h p d = true) ->
    (forall h f a, executeCommand_ok env h f a = false) ->
    images jsonData = (before ++ img :: after)%list ->
    Forall (decodable pf) (images jsonData) ->
    Forall (fun b => truthy (inkscape b) = false) before ->
    truthy (inkscape img) = true ->
    ObjectKeys (inkscape img) = Normal keys ->
    collectOptions folder (inkscape img) keys = Some flags ->
    jsonJob pf env jsonData fileName folder l =
      (Normal (Settled (mkDownloadResult None None)),
       (l ++ [utils_mkdir folder;
              utils_writeFile (path_join pf folder fileName) (Text (text jsonData))]
          ++ imageWrites pf folder (images jsonData)
          ++ [utils_executeCommand "/usr/bin/inkscape"
                ([AVal (JStr "--without-gui");
                  AVal (JStr ("--file=" ++ path_join pf folder (name img)))]
                   ++ flags)])%list).
Proof.
  intros jsonData fileName folder before img after keys flags l
         Hmk Hw Hex Himgs Hdec Hbefore Htruthy Hkeys Hflags.
  unfold jsonJob. run_job. rewrite Hmk. simpl. rewrite Hw. simpl.
  rewrite (saveImages_decodable folder (images jsonData)
             (fun b h d _ => Hw h _ d) Hdec).
  simpl. rewrite Himgs at 1.
  rewrite (convoluteImages_skips folder before _ Hbefore).
  simpl. rewrite Htruthy, Hkeys. run_job. rewrite Hflags.
  simpl. rewrite Hex. simpl. rewrite <- !app_assoc. reflexivity.
Qed.

(** X19.  The second pass of the json job only runs commands: whatever
    the images and the environment, the calls it adds are runs of
    [utils.executeCommand], at most one for each image that asks for
    inkscape; it writes nothing and removes nothing. *)
Theorem convoluteImages_only_runs_commands :
  forall (folder : string) (imgs : list Image) (l : list call),
    exists calls,
      snd (convoluteImages pf env folder imgs l) = (l ++ calls)%list /\
      forallb isCommand calls = true /\
      (length calls <= length (filter (fun img => truthy (inkscape img)) imgs))%nat.
Proof.
  intros folder imgs. induction imgs as [|img rest IH]; intros l; simpl.
  - exists []. rewrite app_nil_r. repeat split. simpl. lia.
  - destruct (truthy (inkscape img)); simpl.
    + run_job.
      destruct (ObjectKeys (inkscape img)) as [keys|e]; simpl.
      * destruct (collectOptions folder (inkscape img) keys) as [flags|]; simpl.
        -- set (c := utils_executeCommand "/usr/bin/inkscape" _).
           destruct (executeCommand_ok env l _ _); simpl.
           ++ destruct (joinArgs _); simpl.
              ** destruct (IH (l ++ [c])%list) as (calls & Hlog & Hall & Hlen).
                 exists (c :: calls). rewrite Hlog, <- app_assoc.
                 repeat split; simpl; [exact Hall | lia].
              ** exists [c]. repeat split. simpl. lia.
           ++ exists [c]. repeat split. simpl. lia.
        -- exists []. rewrite app_nil_r. repeat split. simpl. lia.
      * exists []. rewrite app_nil_r. repeat split. simpl. lia.
    + apply IH.
Qed.

(** X20.  An image that asks for the four supported options with a
    string and safe integers as parameters gets one run of inkscape
    whose arguments are
    [--without-gui], [--file=<path of the image>] and then the four
    flags in the order of the keys, the png file being placed in the
    job's folder; when inkscape succeeds and no other image asks for
    anything the json job succeeds with the folder. *)
Theorem jsonJob_runs_inkscape_with_flags :
  forall (jsonData : JsonData) (fileName folder : string)
         (before : list Image) (img : Image) (after : list Image)
         (png : string) (x0 y0 x1 y1 width height : Z) (l : list call),
    (forall h p, mkdir_ok env h p = true) ->
    (forall h p d, writeFile_ok env h p d = true) ->
    (forall h f a, executeCommand_ok env h f a = true) ->
    images jsonData = (before ++ img :: after)%list ->
    Forall (decodable pf) (images jsonData) ->
    Forall (fun b => truthy (inkscape b) = false) before ->
    Forall (fun b => truthy (inkscape b) = false) after ->
    forallb isSafeInteger [x0; y0; x1; y1; width; height] = true ->
    inkscape img =
      JObj [("export-png", JStr png);
            ("export-area", JObj [("x0", JNum x0); ("y0", JNum y0);
                                  ("x1", JNum x1); ("y1", JNum y1)]);
            ("export-width", JNum width);
            ("export-height", JNum height)] ->
    jsonJob pf env jsonData fileName folder l =
      (Normal (Settled (mkDownloadResult (Some folder) None)),
       (l ++ [utils_mkdir folder;
              utils_writeFile (path_join pf folder fileName) (Text (text jsonData))]
          ++ imageWrites pf folder (images jsonData)
          ++ [utils_executeCommand "/usr/bin/inkscape"
                [AVal (JStr "--without-gui");
                 AVal (JStr ("--file=" ++ path_join pf folder (name img)));
                 AVal (JStr ("--export-png=" ++ folder ++ "/" ++ png));
                 AVal (JStr ("--export-area=" ++ decimal x0 ++ ":" ++ decimal y0
                               ++ ":" ++ decimal x1 ++ ":" ++ decimal y1));
                 AVal (JStr ("--export-width=" ++ decimal width));
                 AVal (JStr ("--export-height=" ++ decimal height))]])%list).
Proof.
  intros jsonData fileName folder before img after png x0 y0 x1 y1 width height l
         Hmk Hw Hex Himgs Hdec Hbefore Hafter Hsafe Hink.
  assert (Hflags :
    collectOptions folder (inkscape img)
      ["export-png"; "export-area"; "export-width"; "export-height"]
    = Some [AVal (JStr ("--export-png=" ++ folder ++ "/" ++ png));
            AVal (JStr ("--export-area=" ++ decimal x0 ++ ":" ++ decimal y0
                          ++ ":" ++ decimal x1 ++ ":" ++ decimal y1));
            AVal (JStr ("--export-width=" ++ decimal width));
            AVal (JStr ("--export-height=" ++ decimal height))]).
  { rewrite Hink.
    cbn [collectOptions Get assoc String.eqb Ascii.eqb Bool.eqb bind ret
         Monad_completion callOption flag].
    unfold export_width, export_height, export_area.
    cbn [Get assoc String.eqb Ascii.eqb Bool.eqb bind ret Monad_completion].
    rewrite !parseInt_JNum. reflexivity. }
  unfold jsonJob. run_job. rewrite Hmk. simpl. rewrite Hw. simpl.
  rewrite (saveImages_decodable folder (images jsonData)
             (fun b h d _ => Hw h _ d) Hdec).
  simpl. rewrite Himgs at 1.
  rewrite (convoluteImages_skips folder before _ Hbefore).
  cbn [convoluteImages]. 
  assert (Htruthy : truthy (inkscape img) = true) by (rewrite Hink; reflexivity).
  assert (Hkeys : ObjectKeys (inkscape img)
                  = Normal ["export-png"; "export-area"; "export-width";
                            "export-height"]) by (rewrite Hink; reflexivity).
  rewrite Htruthy, Hkeys. run_job. rewrite Hflags.
  cbn [app]. rewrite Hex. cbn [negb].
  unfold joinArgs. cbn [ToString bind ret Monad_completion].
  rewrite (convoluteImages_nothing_asked folder after Hafter).
  cbn [fst snd]. rewrite <- !app_assoc. reflexivity.
Qed.

(** X21.  An option key that is neither one of the four builders nor
    one of the nine members of [Object.prototype] that can be called
    this way is refused, whatever its parameter and whatever the other
    options are: no list of flags is produced for the image. *)
Theorem unknown_option_key_is_refused :
  forall (folder : string) (props : list (string * JsValue)) (k : string),
    In k (map fst props) ->
    ~ In k (ownOptionNames ++ inheritedOptionNames) ->
    ObjectKeys (JObj props) = Normal (map fst props) /\
    collectOptions folder (JObj props) (map fst props) = None.
Proof.
  intros folder props k Hin Hnot. split; [reflexivity |].
  apply (collectOptions_throwing_key folder (JObj props) (map fst props) k TypeError Hin).
  cbn [Get bind Monad_completion].
  apply callOption_unknown. exact Hnot.
Qed.

Lemma convoluteImages_log_grows (folder : string) (imgs : list Image) :
  forall l,
    exists calls,
      snd (convoluteImages pf env folder imgs l) = (l ++ calls)%list.
Proof.
  induction imgs as [|img rest IH]; intros l; simpl.
  - exists []. rewrite app_nil_r. reflexivity.
  - destruct (truthy (inkscape img)); [| apply IH].
    run_job.
    destruct (ObjectKeys (inkscape img)) as [keys|e]; simpl;
      [| exists []; rewrite app_nil_r; reflexivity].
    destruct (collectOptions folder (inkscape img) keys) as [flags|]; simpl;
      [| exists []; rewrite app_nil_r; reflexivity].
    set (c := utils_executeCommand "/usr/bin/inkscape" _).
    destruct (executeCommand_ok env l _ _); simpl; [| exists [c]; reflexivity].
    destruct (joinArgs _); simpl; [| exists [c]; reflexivity].
    destruct (IH (l ++ [c])%list) as (calls & ->).
    exists (c :: calls). rewrite <- app_assoc. reflexivity.
Qed.

(** X22.  An image whose [inkscape] field is truthy but has no keys
    ([true], a number other than zero, an empty object or array) still
    gets a run of inkscape, with [--without-gui] and [--file=...] as the
    only arguments. *)
Theorem inkscape_without_options_still_runs :
  forall (folder : string) (img : Image) (rest : list Image) (l : list call),
    truthy (inkscape img) = true ->
    ObjectKeys (inkscape img) = Normal [] ->
    exists l',
      snd (convoluteImages pf env folder (img :: rest) l) =
        (l ++ utils_executeCommand "/usr/bin/inkscape"
                [AVal (JStr "--without-gui");
                 AVal (JStr ("--file=" ++ path_join pf folder (name img)))]
              :: l')%list.
Proof.
  intros folder img rest l Htruthy Hkeys.
  cbn [convoluteImages]. rewrite Htruthy, Hkeys. run_job.
  cbn [collectOptions app].
  destruct (executeCommand_ok env l _ _); cbn [negb].
  - unfold joinArgs. cbn [ToString bind ret Monad_completion].
    destruct (convoluteImages_log_grows folder rest
                (l ++ [utils_executeCommand "/usr/bin/inkscape"
                         [AVal (JStr "--without-gui");
                          AVal (JStr ("--file=" ++ path_join pf folder (name img)))]])%list)
      as (calls & Hlog).
    exists calls.
    destruct (convoluteImages pf env folder rest _) as [out l'].
    cbn [fst snd] in Hlog |- *. rewrite Hlog, <- app_assoc. reflexivity.
  - exists []. reflexivity.
Qed.

End MoreJobProperties.

(** ** The further statements on examples *)

Lemma dispose_before_callback_never_removes_witness :
  let job := textJob examplePlatform (exampleEnv None []) "hello" "a.tex"
               "/tmp/dl/tmp_1" in
  forallb (fun o => negb (isCallback o)) [Trigger] = true /\
  let s := fst (history job emptyWorld
                  ([Trigger] ++ Dispose :: [Callback; Dispose; Trigger])) in
  _disposed (downloader s) = true /\
  log (world s) =
    [utils_mkdir "/tmp/dl/tmp_1";
     utils_writeFile "/tmp/dl/tmp_1/a.tex" (Text "hello")].
Proof.
  intros job. split; [reflexivity |].
  exact (dispose_before_callback_never_removes job emptyWorld
           [Trigger] [Callback; Dispose; Trigger] eq_refl).
Defined.

Lemma dispose_after_download_removes_folder_once_witness :
  let job := textJob examplePlatform (exampleEnv None []) "hello" "a.tex"
               "/tmp/dl/tmp_1" in
  let result := mkDownloadResult (Some "/tmp/dl/tmp_1") None in
  (fst (job (log emptyWorld)) = Normal (Settled result) /\
   "/tmp/dl/tmp_1" <> EmptyString /\
   resolved (fst (history job emptyWorld [Trigger; Callback]))) /\
  let s := fst (history job emptyWorld
                  ([Trigger; Callback] ++ Dispose :: [Dispose; Trigger])) in
  log (world s) =
    [utils_mkdir "/tmp/dl/tmp_1";
     utils_writeFile "/tmp/dl/tmp_1/a.tex" (Text "hello");
     utils_rmdirRecursive "/tmp/dl/tmp_1"] /\
  folderPath (downloader s) = Some "/tmp/dl/tmp_1" /\
  _disposed (downloader s) = true.
Proof.
  intros job result.
  assert (Hne : "/tmp/dl/tmp_1" <> EmptyString) by discriminate.
  assert (Hres : resolved (fst (history job emptyWorld [Trigger; Callback])))
    by (exists 0%nat; reflexivity).
  split; [repeat split; assumption |].
  exact (dispose_after_download_removes_folder_once job emptyWorld result
           "/tmp/dl/tmp_1" [Trigger; Callback] [Dispose; Trigger]
           eq_refl eq_refl Hne eq_refl Hres).
Defined.

Lemma unfulfilled_job_leaves_downloader_empty_witness :
  let job := urlJob examplePlatform (exampleEnv None [EvResponse 200])
               "http://example.org/main.tex" "main.tex" "/tmp/dl/tmp_1" in
  (forall result, fst (job (log emptyWorld)) <> Normal (Settled result)) /\
  let s := fst (history job emptyWorld [Trigger; Callback; Dispose]) in
  folderPath (downloader s) = None /\
  userError (downloader s) = None /\
  ~ resolved s /\
  (log (world s) = log emptyWorld \/ log (world s) = snd (job (log emptyWorld))).
Proof.
  intros job.
  assert (Hjob : forall result,
             fst (job (log emptyWorld)) <> Normal (Settled result))
    by (intros result H; discriminate H).
  split; [exact Hjob |].
  exact (unfulfilled_job_leaves_downloader_empty job emptyWorld
           [Trigger; Callback; Dispose] Hjob).
Defined.

Lemma manager_never_reuses_a_name_witness :
  (0 <= _id exampleManager /\
   _id exampleManager + Z.of_nat 3 <= maxSafeInteger /\
   (forall i j,
       0 < i <= maxSafeInteger ->
       0 < j <= maxSafeInteger ->
       path_join examplePlatform (_folderPath exampleManager) ("tmp_" ++ decimal i)
         = path_join examplePlatform (_folderPath exampleManager)
             ("tmp_" ++ decimal j) ->
       i = j)) /\
  NoDup (fst (nextNames examplePlatform exampleManager 3)) /\
  fst (nextNames examplePlatform exampleManager 3)
    = ["/tmp/dl/tmp_1"; "/tmp/dl/tmp_2"; "/tmp/dl/tmp_3"].
Proof.
  assert (Hlow : 0 <= _id exampleManager) by (simpl; lia).
  assert (Hhigh : _id exampleManager + Z.of_nat 3 <= maxSafeInteger)
    by (vm_compute; discriminate).
  assert (Hinj : forall i j,
             0 < i <= maxSafeInteger ->
             0 < j <= maxSafeInteger ->
             path_join examplePlatform (_folderPath exampleManager)
               ("tmp_" ++ decimal i)
               = path_join examplePlatform (_folderPath exampleManager)
                   ("tmp_" ++ decimal j) ->
             i = j).
  { intros i j _ _ H. simpl in H. apply decimal_injective. congruence. }
  split; [repeat split; assumption |].
  split; [| reflexivity].
  exact (manager_never_reuses_a_name examplePlatform exampleManager 3
           Hlow Hhigh Hinj).
Defined.

Lemma text_downloader_writes_the_text_witness :
  let env := exampleEnv None [] in
  let job := _downloadJob
               (fst (createTextDownloader examplePlatform env exampleManager
                       "hello" "a.tex")) in
  ((forall h p, mkdir_ok env h p = true) /\
   (forall h p d, writeFile_ok env h p d = true)) /\
  let s := fst (history job emptyWorld [Trigger; Callback]) in
  log (world s) =
    [utils_mkdir "/tmp/dl/tmp_1";
     utils_writeFile "/tmp/dl/tmp_1/a.tex" (Text "hello")] /\
  folderPath (downloader s) = Some "/tmp/dl/tmp_1" /\
  userError (downloader s) = None /\
  resolved s.
Proof.
  intros env job. split; [split; reflexivity |].
  exact (text_downloader_writes_the_text examplePlatform env exampleManager
           "hello" "a.tex" emptyWorld (fun _ _ => eq_refl) (fun _ _ _ => eq_refl)).
Defined.

Lemma url_downloader_reports_stream_error_witness :
  let url := "http://example.org/main.tex" in
  let env := exampleEnv None [EvError "Error: ETIMEDOUT"] in
  let job := _downloadJob
               (fst (createURLDownloader examplePlatform env exampleManager
                       url "main.tex")) in
  (mkdir_ok env (log emptyWorld) "/tmp/dl/tmp_1" = true /\
   urlEvents examplePlatform env url "main.tex" "/tmp/dl/tmp_1" (log emptyWorld)
     = ([] ++ EvError "Error: ETIMEDOUT" :: [])%list) /\
  let s := fst (history job emptyWorld [Trigger; Callback; Dispose]) in
  userError (downloader s)
    = Some "error while loading http://example.org/main.tex: Error: ETIMEDOUT" /\
  folderPath (downloader s) = None /\
  log (world s) = snd (job (log emptyWorld)) /\
  In (utils_rmdirRecursive "/tmp/dl/tmp_1") (log (world s)).
Proof.
  intros url env job. split; [split; reflexivity |].
  exact (url_downloader_reports_stream_error examplePlatform env exampleManager
           url "main.tex" emptyWorld [] [] "Error: ETIMEDOUT"
           eq_refl (Forall_nil _) eq_refl).
Defined.

Lemma urlJob_hangs_without_finish_witness :
  let url := "http://example.org/main.tex" in
  let env := exampleEnv None [EvResponse 200] in
  (mkdir_ok env [] "/tmp/dl/tmp_1" = true /\
   Forall (fun ev => quiet ev = true)
     (urlEvents examplePlatform env url "main.tex" "/tmp/dl/tmp_1" [])) /\
  urlJob examplePlatform env url "main.tex" "/tmp/dl/tmp_1" [] =
    (Normal Unsettled,
     [utils_mkdir "/tmp/dl/tmp_1";
      fs_createWriteStream "/tmp/dl/tmp_1/main.tex";
      request_get url 5000]).
Proof.
  intros url env.
  assert (Hquiet : Forall (fun ev => quiet ev = true)
            (urlEvents examplePlatform env url "main.tex" "/tmp/dl/tmp_1" []))
    by (constructor; [reflexivity | constructor]).
  split; [split; [reflexivity | exact Hquiet] |].
  exact (urlJob_hangs_without_finish examplePlatform env url "main.tex"
           "/tmp/dl/tmp_1" [] eq_refl Hquiet).
Defined.

Lemma exampleImage_decodable (name : string) (inkscape : JsValue) :
  decodable examplePlatform (exampleImage name inkscape).
Proof.
  exists "base64", "data:image/svg+xml;base64,AAAA". split; reflexivity.
Defined.

Lemma jsonJob_writes_text_and_images_witness :
  let env := exampleEnv None [] in
  let a := exampleImage "a.svg" JUndefined in
  let b := exampleImage "b.svg" JNull in
  let jsonData := {| text := "hello"; images := [a; b] |} in
  (Forall (decodable examplePlatform) (images jsonData) /\
   Forall (fun img => truthy (inkscape img) = false) (images jsonData)) /\
  jsonJob examplePlatform env jsonData "main.tex" "/tmp/dl/tmp_1" [] =
    (Normal (Settled (mkDownloadResult (Some "/tmp/dl/tmp_1") None)),
     [utils_mkdir "/tmp/dl/tmp_1";
      utils_writeFile "/tmp/dl/tmp_1/main.tex" (Text "hello");
      utils_writeFile "/tmp/dl/tmp_1/a.svg"
        (Buffer "data:image/svg+xml;base64,AAAA" "base64");
      utils_writeFile "/tmp/dl/tmp_1/b.svg"
        (Buffer "data:image/svg+xml;base64,AAAA" "base64")]).
Proof.
  intros env a b jsonData.
  assert (Hdec : Forall (decodable examplePlatform) (images jsonData))
    by (repeat constructor; apply exampleImage_decodable).
  assert (Hink : Forall (fun img => truthy (inkscape img) = false) (images jsonData))
    by (repeat constructor).
  split; [split; assumption |].
  exact (jsonJob_writes_text_and_images examplePlatform env jsonData "main.tex"
           "/tmp/dl/tmp_1" [] (fun _ _ => eq_refl) (fun _ _ _ => eq_refl)
           Hdec Hink).
Defined.

Lemma jsonJob_image_write_failure_witness :
  let bad := "/tmp/dl/tmp_1/b.svg" in
  let env := unwritableEnv bad in
  let a := exampleImage "a.svg" JUndefined in
  let b := exampleImage "b.svg" JUndefined in
  let jsonData := {| text := "hello"; images := [a; b; a] |} in
  ((forall h p d, p <> bad -> writeFile_ok env h p d = true) /\
   (forall h d, writeFile_ok env h bad d = false)) /\
  jsonJob examplePlatform env jsonData "main.tex" "/tmp/dl/tmp_1" [] =
    (Normal (Settled (mkDownloadResult None None)),
     [utils_mkdir "/tmp/dl/tmp_1";
      utils_writeFile "/tmp/dl/tmp_1/main.tex" (Text "hello");
      utils_writeFile "/tmp/dl/tmp_1/a.svg"
        (Buffer "data:image/svg+xml;base64,AAAA" "base64");
      utils_writeFile "/tmp/dl/tmp_1/b.svg"
        (Buffer "data:image/svg+xml;base64,AAAA" "base64");
      utils_rmdirRecursive "/tmp/dl/tmp_1"]).
Proof.
  intros bad env a b jsonData.
  assert (Hok : forall h p d, p <> bad -> writeFile_ok env h p d = true).
  { intros h p d Hp. simpl. apply negb_true_iff. apply String.eqb_neq. exact Hp. }
  assert (Hbad : forall h d, writeFile_ok env h bad d = false)
    by (intros; reflexivity).
  assert (Htext : path_join examplePlatform "/tmp/dl/tmp_1" "main.tex" <> bad)
    by discriminate.
  assert (Hnames : Forall (fun i => path_join examplePlatform "/tmp/dl/tmp_1"
                                      (name i) <> bad) [a])
    by (constructor; [discriminate | constructor]).
  assert (Hdec : Forall (decodable examplePlatform) [a])
    by (repeat constructor; apply exampleImage_decodable).
  split; [split; assumption |].
  exact (jsonJob_image_write_failure examplePlatform env jsonData "main.tex"
           "/tmp/dl/tmp_1" [a] b [a] [] (fun _ _ => eq_refl) Hok Hbad Htext
           Hnames eq_refl Hdec (exampleImage_decodable "b.svg" JUndefined)).
Defined.

Lemma jsonJob_unknown_encoding_rejects_witness :
  let env := exampleEnv None [] in
  let img := {| name := "a.txt"; imageDataUrl := "data:text/plain;charset=utf-8,hi";
                inkscape := JUndefined |} in
  let jsonData := {| text := "hello"; images := [img] |} in
  (dataUriRE_exec charsetPlatform (imageDataUrl img)
     = Some ("charset=utf-8", "data:text/plain;charset=utf-8,hi") /\
   Buffer_isEncoding charsetPlatform "charset=utf-8" = false) /\
  jsonJob charsetPlatform env jsonData "main.tex" "/tmp/dl/tmp_1" [] =
    (Throw TypeError,
     [utils_mkdir "/tmp/dl/tmp_1";
      utils_writeFile "/tmp/dl/tmp_1/main.tex" (Text "hello")]).
Proof.
  intros env img jsonData. split; [split; reflexivity |].
  exact (jsonJob_unknown_encoding_rejects charsetPlatform env jsonData "main.tex"
           "/tmp/dl/tmp_1" [] img [] "charset=utf-8"
           "data:text/plain;charset=utf-8,hi" []
           (fun _ _ => eq_refl) (fun _ _ _ => eq_refl) eq_refl (Forall_nil _)
           eq_refl eq_refl).
Defined.

Lemma jsonJob_throwing_option_keeps_folder_witness :
  let env := exampleEnv None [] in
  let img := exampleImage "a.svg" (JObj [("export-width", JStr "not-a-number")]) in
  let jsonData := {| text := "hello"; images := [img] |} in
  (truthy (inkscape img) = true /\
   ObjectKeys (inkscape img) = Normal ["export-width"] /\
   (arg <- Get (inkscape img) "export-width" ;;
    callOption "/tmp/dl/tmp_1" "export-width" arg)
     = Throw (ExnString "Expected a number parameter but NaN detected.")) /\
  jsonJob examplePlatform env jsonData "main.tex" "/tmp/dl/tmp_1" [] =
    (Normal (Settled (mkDownloadResult None None)),
     [utils_mkdir "/tmp/dl/tmp_1";
      utils_writeFile "/tmp/dl/tmp_1/main.tex" (Text "hello");
      utils_writeFile "/tmp/dl/tmp_1/a.svg"
        (Buffer "data:image/svg+xml;base64,AAAA" "base64")]).
Proof.
  intros env img jsonData.
  assert (Hdec : Forall (decodable examplePlatform) (images jsonData))
    by (repeat constructor; apply exampleImage_decodable).
  split; [repeat split |].
  exact (jsonJob_throwing_option_keeps_folder examplePlatform env jsonData
           "main.tex" "/tmp/dl/tmp_1" [] img [] ["export-width"] "export-width"
           (ExnString "Expected a number parameter but NaN detected.") []
           (fun _ _ => eq_refl) (fun _ _ _ => eq_refl) eq_refl Hdec
           (Forall_nil _) eq_refl eq_refl (or_introl eq_refl) eq_refl).
Defined.

Lemma jsonJob_inkscape_failure_keeps_folder_witness :
  let env := failingCommandEnv in
  let img := exampleImage "a.svg" (JObj [("export-width", JNum 100)]) in
  let jsonData := {| text := "hello"; images := [img; img] |} in
  ((forall h f a, executeCommand_ok env h f a = false) /\
   collectOptions "/tmp/dl/tmp_1" (inkscape img) ["export-width"]
     = Some [AVal (JStr "--export-width=100")]) /\
  jsonJob examplePlatform env jsonData "main.tex" "/tmp/dl/tmp_1" [] =
    (Normal (Settled (mkDownloadResult None None)),
     [utils_mkdir "/tmp/dl/tmp_1";
      utils_writeFile "/tmp/dl/tmp_1/main.tex" (Text "hello");
      utils_writeFile "/tmp/dl/tmp_1/a.svg"
        (Buffer "data:image/svg+xml;base64,AAAA" "base64");
      utils_writeFile "/tmp/dl/tmp_1/a.svg"
        (Buffer "data:image/svg+xml;base64,AAAA" "base64");
      utils_executeCommand "/usr/bin/inkscape"
        [AVal (JStr "--without-gui"); AVal (JStr "--file=/tmp/dl/tmp_1/a.svg");
         AVal (JStr "--export-width=100")]]).
Proof.
  intros env img jsonData.
  assert (Hdec : Forall (decodable examplePlatform) (images jsonData))
    by (repeat constructor; apply exampleImage_decodable).
  split; [split; reflexivity |].
  exact (jsonJob_inkscape_failure_keeps_folder examplePlatform env jsonData
           "main.tex" "/tmp/dl/tmp_1" [] img [img] ["export-width"]
           [AVal (JStr "--export-width=100")] []
           (fun _ _ => eq_refl) (fun _ _ _ => eq_refl) (fun _ _ _ => eq_refl)
           eq_refl Hdec (Forall_nil _) eq_refl eq_refl eq_refl).
Defined.

Lemma jsonJob_runs_inkscape_with_flags_witness :
  let env := exampleEnv None [] in
  let options :=
    JObj [("export-png", JStr "a.png");
          ("export-area", JObj [("x0", JNum 0); ("y0", JNum 0);
                                ("x1", JNum 100); ("y1", JNum 200)]);
          ("export-width", JNum 640);
          ("export-height", JNum 480)] in
  let img := exampleImage "a.svg" options in
  let jsonData := {| text := "hello"; images := [img] |} in
  (Forall (decodable examplePlatform) (images jsonData) /\
   forallb isSafeInteger [0; 0; 100; 200; 640; 480] = true /\
   inkscape img = options) /\
  jsonJob examplePlatform env jsonData "main.tex" "/tmp/dl/tmp_1" [] =
    (Normal (Settled (mkDownloadResult (Some "/tmp/dl/tmp_1") None)),
     [utils_mkdir "/tmp/dl/tmp_1";
      utils_writeFile "/tmp/dl/tmp_1/main.tex" (Text "hello");
      utils_writeFile "/tmp/dl/tmp_1/a.svg"
        (Buffer "data:image/svg+xml;base64,AAAA" "base64");
      utils_executeCommand "/usr/bin/inkscape"
        [AVal (JStr "--without-gui"); AVal (JStr "--file=/tmp/dl/tmp_1/a.svg");
         AVal (JStr "--export-png=/tmp/dl/tmp_1/a.png");
         AVal (JStr "--export-area=0:0:100:200");
         AVal (JStr "--export-width=640");
         AVal (JStr "--export-height=480")]]).
Proof.
  intros env options img jsonData.
  assert (Hdec : Forall (decodable examplePlatform) (images jsonData))
    by (repeat constructor; apply exampleImage_decodable).
  split; [split; [exact Hdec | split; reflexivity] |].
  exact (jsonJob_runs_inkscape_with_flags examplePlatform env jsonData
           "main.tex" "/tmp/dl/tmp_1" [] img [] "a.png" 0 0 100 200 640 480 []
           (fun _ _ => eq_refl) (fun _ _ _ => eq_refl) (fun _ _ _ => eq_refl)
           eq_refl Hdec (Forall_nil _) (Forall_nil _) eq_refl eq_refl).
Defined.

Lemma unknown_option_key_is_refused_witness :
  let props := [("export-width", JNum 100); ("export-dpi", JNum 300)] in
  (In "export-dpi" (map fst props) /\
   ~ In "export-dpi" (ownOptionNames ++ inheritedOptionNames)) /\
  collectOptions "/tmp/dl/tmp_1" (JObj props) (map fst props) = None.
Proof.
  intros props.
  assert (Hin : In "export-dpi" (map fst props)) by (right; left; reflexivity).
  assert (Hnot : ~ In "export-dpi" (ownOptionNames ++ inheritedOptionNames)).
  { intros H. simpl in H.
    repeat (destruct H as [H|H]; [discriminate H |]). exact H. }
  split; [split; assumption |].
  exact (proj2 (unknown_option_key_is_refused "/tmp/dl/tmp_1" props "export-dpi"
                  Hin Hnot)).
Defined.

Lemma inkscape_without_options_still_runs_witness :
  let env := exampleEnv None [] in
  let img := exampleImage "a.svg" (JBool true) in
  (truthy (inkscape img) = true /\ ObjectKeys (inkscape img) = Normal []) /\
  exists l',
    snd (convoluteImages examplePlatform env "/tmp/dl/tmp_1" [img] []) =
      (utils_executeCommand "/usr/bin/inkscape"
         [AVal (JStr "--without-gui"); AVal (JStr "--file=/tmp/dl/tmp_1/a.svg")]
       :: l').
Proof.
  intros env img. split; [split; reflexivity |].
  exact (inkscape_without_options_still_runs examplePlatform env "/tmp/dl/tmp_1"
           img [] [] eq_refl eq_refl).
Defined.

Lemma jsonJob_undecodable_image_preempts_malformed_witness :
  let env := exampleEnv None [] in
  let und := {| name := "a.txt"; imageDataUrl := "data:text/plain;charset=utf-8,hi";
                inkscape := JUndefined |} in
  let bad := {| name := "b.png"; imageDataUrl := "not a data URI";
                inkscape := JUndefined |} in
  let jsonData := {| text := "hello"; images := [und; bad] |} in
  let job := _downloadJob
               (fst (createJsonDownloader charsetPlatform env exampleManager
                       jsonData "main.tex")) in
  (dataUriRE_exec charsetPlatform (imageDataUrl und)
     = Some ("charset=utf-8", "data:text/plain;charset=utf-8,hi") /\
   Buffer_isEncoding charsetPlatform "charset=utf-8" = false /\
   dataUriRE_exec charsetPlatform (imageDataUrl bad) = None) /\
  job [] =
    (Throw TypeError,
     [utils_mkdir "/tmp/dl/tmp_1";
      utils_writeFile "/tmp/dl/tmp_1/main.tex" (Text "hello")]) /\
  (forall result, fst (job []) <> Normal (Settled result)).
Proof.
  intros env und bad jsonData job. split; [repeat split |].
  exact (jsonJob_undecodable_image_preempts_malformed charsetPlatform env
           exampleManager jsonData "main.tex" [] und [] bad []
           "charset=utf-8" "data:text/plain;charset=utf-8,hi" []
           (fun _ _ => eq_refl) (fun _ _ _ => eq_refl) eq_refl (Forall_nil _)
           eq_refl eq_refl (Forall_nil _) eq_refl).
Defined.
